(** * gee_subsets.py: a shallow embedding of the command line script

    The script parses its options ([getArgs]), resolves the list of locations,
    converts the radius to degrees, opens the Earth Engine session and then,
    for every location, builds a geometry, asks the remote catalogue for the
    region values, reshapes the answer with pandas and prints or saves it.

    Python values are an inductive type, the argparse namespace is a finite
    map from attribute names to values, floats are IEEE binary64 (the kernel's
    primitive floats), and the script runs in a writer/error monad: a run
    yields the trace of its observable effects and either a value or the
    uncaught exception.  The collaborators the script calls but does not
    define (the file system, [pd.read_csv], the string parsers of [float] and
    [int], the Earth Engine client) are the fields of a [World]. *)

From Stdlib Require Import ZArith String Ascii List Bool Lia.
From Stdlib Require Import PrimFloat FloatOps SpecFloat.
From stdpp Require Import base option strings gmap list.
Import ListNotations.

Local Open Scope string_scope.
Local Open Scope list_scope.

Set Warnings "-inexact-float".

(** ** Python values *)

(** The values the script handles: command line arguments are [str], lists of
    [str] or the integer default [0]; table cells and JSON values are ints,
    floats, strings, [None] or, after [pd.to_datetime], timestamps.  A
    timestamp is kept as the number of seconds after the epoch it was decoded
    from. *)
Inductive pyval : Type :=
| VInt (z : Z)
| VFloat (x : float)
| VStr (s : string)
| VList (l : list string)
| VNone
| VTimestamp (seconds : float).

(** Uncaught exceptions.  [External] stands for whatever a collaborator
    raises (pandas I/O errors, Earth Engine errors). *)
Inductive exn : Type :=
| NameError (name : string)
| AttributeError (attr : string)
| TypeError
| ValueError
| KeyError (key : string)
| IndexError
| SystemExit (code : Z)
| External (msg : string).

(** The interpreter is not pinned by the script (its first line asks for
    [python]); the two languages differ on one operation the script uses,
    the ordering of a [str] against an [int]. *)
Inductive py_version : Type := Py2 | Py3.

(** A pandas data frame with the default range index: its column labels and
    its rows.  Type inference of columns is not modelled, cells keep the
    Python value they were built from. *)
Record DataFrame : Type := mkDataFrame {
  columns : list pyval;
  values : list (list pyval)
}.

(** [ee.Geometry.Point(coords)] and [ee.Geometry.Rectangle(coords)]; the
    rectangle's list is west, south, east, north. *)
Inductive Geometry : Type :=
| Point (coords : list pyval)
| Rectangle (coords : list pyval).

(** What [getRegion(...).getInfo()] is asked: the collection (product,
    selected bands, date filter), the geometry and the scale. *)
Record Query : Type := mkQuery {
  q_product : pyval;
  q_bands : list pyval;
  q_start : pyval;
  q_end : pyval;
  q_geometry : Geometry;
  q_scale : Z
}.

(** Observable effects of a run, in order. *)
Inductive event : Type :=
| EPrint (x : pyval)
| EPrintFrame (df : DataFrame)
| EInitialize
| EGetRegion (q : Query)
| EToCsv (path : string) (file : list (list pyval)).

(** ** The monad of the script *)

Definition M (A : Type) : Type := list event * (exn + A).

Definition ret {A} (a : A) : M A := ([], inr a).
Definition raise {A} (e : exn) : M A := ([], inl e).
Definition emit (ev : event) : M unit := ([ev], inr tt).

Definition bind {A B} (m : M A) (k : A -> M B) : M B :=
  match m with
  | (t, inl e) => (t, inl e)
  | (t, inr a) => let '(t', r) := k a in (t ++ t', r)
  end.

Definition lift {A} (r : exn + A) : M A := ([], r).

Notation "'let*' x ':=' m 'in' k" := (bind m (fun x => k))
  (at level 10, x pattern, m at level 100, k at level 200).
Notation "m ';;;' k" := (bind m (fun _ => k))
  (at level 100, k at level 200, right associativity).

(** [for x in xs: body x] *)
Fixpoint for_each {A} (xs : list A) (body : A -> M unit) : M unit :=
  match xs with
  | [] => ret tt
  | x :: xs' => body x ;;; for_each xs' body
  end.

Definition trace {A} (m : M A) : list event := fst m.
Definition outcome {A} (m : M A) : exn + A := snd m.

(** ** Collaborators *)

Record World : Type := mkWorld {
  (** [os.path.isfile] *)
  os_path_isfile : string -> bool;
  (** [pd.read_csv] on a path, URL or buffer name *)
  pd_read_csv : string -> exn + DataFrame;
  (** the parser of the builtin [float] on non-empty strings; [None] is
      [ValueError] *)
  float_of_str : string -> option float;
  (** the string parser of the builtin [int]; [None] is [ValueError] *)
  int_of_str : string -> option Z;
  (** [ee.Initialize()]: the exception it raises, if any *)
  ee_Initialize : option exn;
  (** [collection.getRegion(geometry, scale).getInfo()] *)
  ee_getRegion : Query -> exn + list (list pyval)
}.

(** ** Builtin operations *)

(** Truth value of an object, as tested by [if]. *)
Definition truthy (v : pyval) : bool :=
  match v with
  | VInt z => negb (z =? 0)%Z
  | VFloat x => negb (PrimFloat.eqb x 0%float)
  | VStr s => negb (String.eqb s "")
  | VList l => match l with [] => false | _ => true end
  | VNone => false
  | VTimestamp _ => true
  end.

(** Conversion of an [int] to a [float], rounding to nearest even. *)
Definition float_of_Z (z : Z) : float :=
  SF2Prim (binary_normalize prec emax z 0 false).

(** [x > 0].  Numbers compare by value.  Python 2 orders objects of
    other types after every number ([None] before), Python 3 refuses. *)
Definition py_gt_zero (v : py_version) (x : pyval) : exn + bool :=
  match x with
  | VInt z => inr (0 <? z)%Z
  | VFloat f => inr (PrimFloat.ltb 0%float f)
  | VNone => match v with Py2 => inr false | Py3 => inl TypeError end
  | VStr _ | VList _ | VTimestamp _ =>
      match v with Py2 => inr true | Py3 => inl TypeError end
  end.

(** [float(x)]; the empty string is not a number, any other string goes
    to the parser. *)
Definition py_float (w : World) (x : pyval) : exn + float :=
  match x with
  | VInt z => inr (float_of_Z z)
  | VFloat f => inr f
  | VStr s => if String.eqb s "" then inl ValueError
              else match float_of_str w s with Some f => inr f | None => inl ValueError end
  | VList _ | VNone | VTimestamp _ => inl TypeError
  end.

(** [int(x)], for the arguments the script converts *)
Definition py_int (w : World) (x : pyval) : exn + Z :=
  match x with
  | VInt z => inr z
  | VStr s => match int_of_str w s with Some z => inr z | None => inl ValueError end
  | VFloat _ | VList _ | VNone | VTimestamp _ => inl TypeError
  end.

(** [a + b] on strings, lists and integers *)
Definition py_add (a b : pyval) : exn + pyval :=
  match a, b with
  | VStr s, VStr t => inr (VStr (s ++ t))
  | VList l, VList k => inr (VList (l ++ k))
  | VInt x, VInt y => inr (VInt (x + y))
  | VFloat x, VFloat y => inr (VFloat (x + y))
  | VInt x, VFloat y => inr (VFloat (float_of_Z x + y))
  | VFloat x, VInt y => inr (VFloat (x + float_of_Z y))
  | _, _ => inl TypeError
  end.

(** [a + r] and [a - r] for a cell [a] and a float [r] *)
Definition py_num (a : pyval) : exn + float :=
  match a with
  | VInt z => inr (float_of_Z z)
  | VFloat x => inr x
  | _ => inl TypeError
  end.

Definition py_add_float (a : pyval) (r : float) : exn + pyval :=
  match py_num a with inr x => inr (VFloat (x + r)) | inl e => inl e end.

Definition py_sub_float (a : pyval) (r : float) : exn + pyval :=
  match py_num a with inr x => inr (VFloat (x - r)) | inl e => inl e end.

(** [t[i]] on a tuple *)
Definition py_index (t : list pyval) (i : nat) : exn + pyval :=
  match t !! i with Some x => inr x | None => inl IndexError end.

(** [rows[0]] on a list of rows *)
Definition py_first (rows : list (list pyval)) : exn + list pyval :=
  match rows with
  | r :: _ => inr r
  | [] => inl IndexError
  end.

(** [tuple(x)] *)
Definition py_tuple (x : pyval) : exn + list pyval :=
  match x with
  | VList l => inr (map VStr l)
  | VStr s => inr (map (fun c => VStr (String c "")) (list_ascii_of_string s))
  | VInt _ | VFloat _ | VNone | VTimestamp _ => inl TypeError
  end.

(** [print(x)] for an object other than a data frame *)
Definition py_print (x : pyval) : M unit := emit (EPrint x).

(** A variable of the script that some paths leave unassigned. *)
Definition lookup_var {A} (name : string) (x : option A) : M A :=
  match x with
  | Some a => ret a
  | None => raise (NameError name)
  end.

(** ** argparse *)

(** [nargs] of an option: absent (one value, stored as a [str]), a count or
    ["+"] (stored as a list). *)
Inductive nargs_spec : Type :=
| NargsNone
| NargsN (n : nat)
| NargsPlus.

(** One [parser.add_argument] call. *)
Record Action : Type := mkAction {
  option_strings : list string;
  nargs : nargs_spec;
  required : bool;
  default : pyval
}.

Fixpoint lstrip_dash (s : string) : string :=
  match s with
  | String c s' => if Ascii.eqb c "-" then lstrip_dash s' else s
  | EmptyString => s
  end.

Fixpoint dash_to_underscore (s : string) : string :=
  match s with
  | String c s' => String (if Ascii.eqb c "-" then "_"%char else c) (dash_to_underscore s')
  | EmptyString => EmptyString
  end.

Definition is_long (s : string) : bool := String.prefix "--" s.

(** The attribute an option is stored under: the first long option string,
    or the first option string when there is none, without its leading
    dashes and with inner dashes turned into underscores. *)
Definition dest (a : Action) : string :=
  match (List.filter is_long (option_strings a) ++ option_strings a)%list with
  | s :: _ => dash_to_underscore (lstrip_dash s)
  | [] => ""
  end.

(** The options declared by [getArgs], in order. *)
Definition parser : list Action :=
  [ mkAction ["-p"; "--product"] NargsNone true VNone;
    mkAction ["-b"; "--band"] NargsPlus true VNone;
    mkAction ["-s"; "--start"] NargsNone false (VStr "2013-01-01");
    mkAction ["-e"; "--end"] NargsNone false (VStr "2014-12-31");
    mkAction ["-r"; "--radius"] NargsNone false (VStr "0");
    mkAction ["-sc"; "--scale"] NargsNone false (VStr "30");
    mkAction ["-loc"; "--location"] (NargsN 2) false (VInt 0);
    mkAction ["-f"; "--file"] NargsNone false (VInt 0);
    mkAction ["-d"; "--directory"] NargsNone false (VInt 0) ].

(** A command line after tokenisation: each option as it was typed (in one
    of its declared spellings) with the values that follow it. *)
Definition CommandLine : Type := list (string * list string).

Definition names (a : Action) (o : string) : bool :=
  existsb (String.eqb o) (option_strings a).

(** The values of an option, converted as its [nargs] asks; a wrong number
    of values is a usage error (exit status 2). *)
Definition convert (n : nargs_spec) (xs : list string) : exn + pyval :=
  match n with
  | NargsNone => match xs with [x] => inr (VStr x) | _ => inl (SystemExit 2) end
  | NargsN k => if (length xs =? k)%nat then inr (VList xs) else inl (SystemExit 2)
  | NargsPlus => match xs with [] => inl (SystemExit 2) | _ => inr (VList xs) end
  end.

(** The last occurrence of an option on the command line wins. *)
Definition supplied (cmd : CommandLine) (a : Action) : option (list string) :=
  fold_left (fun acc ox => if names a (fst ox) then Some (snd ox) else acc) cmd None.

Definition parse_action (cmd : CommandLine) (a : Action) : exn + pyval :=
  match supplied cmd a with
  | Some xs => convert (nargs a) xs
  | None => if required a then inl (SystemExit 2) else inr (default a)
  end.

(** Every option typed is a declared one and has the right number of values. *)
Definition recognised (ox : string * list string) : bool :=
  existsb (fun a => names a (fst ox) &&
                    match convert (nargs a) (snd ox) with inr _ => true | inl _ => false end)
          parser.

Definition store (a : Action) (cmd : CommandLine)
    (acc : exn + gmap string pyval) : exn + gmap string pyval :=
  match acc with
  | inl e => inl e
  | inr ns => match parse_action cmd a with
              | inl e => inl e
              | inr v => inr (<[dest a := v]> ns)
              end
  end.

(** [parser.parse_args()]: the namespace, or the usage error. *)
Definition parse_args (cmd : CommandLine) : exn + gmap string pyval :=
  if forallb recognised cmd
  then fold_left (fun acc a => store a cmd acc) parser (inr ∅)
  else inl (SystemExit 2).

Definition getArgs (cmd : CommandLine) : M (gmap string pyval) := lift (parse_args cmd).

(** [args.name] *)
Definition py_getattr (args : gmap string pyval) (name : string) : M pyval :=
  match args !! name with
  | Some v => ret v
  | None => raise (AttributeError name)
  end.

(** ** pandas *)

(** A column label equal to the string [name]. *)
Definition is_label (name : string) (l : pyval) : bool :=
  match l with
  | VStr s => String.eqb s name
  | _ => false
  end.

Definition has_label (name : string) (labels : list pyval) : bool :=
  existsb (is_label name) labels.

Definition width (rows : list (list pyval)) : nat :=
  fold_right (fun r n => Nat.max (length r) n) 0%nat rows.

Definition pad (k : nat) (r : list pyval) : list pyval :=
  (r ++ repeat VNone (k - length r))%list.

(** [pd.DataFrame.from_records(rows)] for a list of lists: as many columns
    as the longest row has cells, labelled 0, 1, ...; shorter rows are
    filled with [None].  No rows give a frame without columns. *)
Definition from_records (rows : list (list pyval)) : DataFrame :=
  let k := width rows in
  mkDataFrame (map (fun i => VInt (Z.of_nat i)) (seq 0 k)) (map (pad k) rows).

(** [df.columns = labels]: the number of labels must be the number of
    columns. *)
Definition set_columns (labels : list pyval) (df : DataFrame) : exn + DataFrame :=
  if (length labels =? length (columns df))%nat
  then inr (mkDataFrame labels (values df))
  else inl ValueError.

(** The cells of [xs] at the positions where [keep] holds. *)
Fixpoint select {A} (keep : list bool) (xs : list A) : list A :=
  match keep, xs with
  | b :: keep', x :: xs' => if b then x :: select keep' xs' else select keep' xs'
  | _, _ => []
  end.

(** [df.drop(name, axis=1, inplace=True)] *)
Definition drop_column (name : string) (df : DataFrame) : exn + DataFrame :=
  if has_label name (columns df)
  then let keep := map (fun l => negb (is_label name l)) (columns df) in
       inr (mkDataFrame (select keep (columns df)) (map (select keep) (values df)))
  else inl (KeyError name).

(** The cell of a row under the label [name]. *)
Fixpoint cell (name : string) (labels row : list pyval) : option pyval :=
  match labels, row with
  | l :: labels', x :: row' => if is_label name l then Some x else cell name labels' row'
  | _, _ => None
  end.

Definition or_none {E} (r : E + pyval) : pyval :=
  match r with
  | inr x => x
  | inl _ => VNone
  end.

Definition cell_value (name : string) (labels row : list pyval) : pyval :=
  match cell name labels row with
  | Some x => x
  | None => VNone
  end.

(** The series [df[name]], as the list of its values. *)
Definition column (name : string) (df : DataFrame) : option (list pyval) :=
  if has_label name (columns df)
  then Some (map (cell_value name (columns df)) (values df))
  else None.

(** [df.name] *)
Definition df_getattr (name : string) (df : DataFrame) : exn + list pyval :=
  match column name df with
  | Some s => inr s
  | None => inl (AttributeError name)
  end.

(** [df[name]] *)
Definition df_getitem (name : string) (df : DataFrame) : exn + list pyval :=
  match column name df with
  | Some s => inr s
  | None => inl (KeyError name)
  end.

Fixpoint replace_cell (name : string) (labels row : list pyval) (v : pyval) : list pyval :=
  match labels, row with
  | l :: labels', x :: row' =>
      (if is_label name l then v else x) :: replace_cell name labels' row' v
  | _, _ => row
  end.

(** [df[name] = series] (also [df.name = series] for an existing column):
    an existing column is overwritten in place, a new one is added last. *)
Definition set_column (name : string) (series : list pyval) (df : DataFrame) : DataFrame :=
  if has_label name (columns df)
  then mkDataFrame (columns df)
         (zip_with (fun r v => replace_cell name (columns df) r v) (values df) series)
  else mkDataFrame (columns df ++ [VStr name])%list
         (zip_with (fun r v => (r ++ [v])%list) (values df) series).

(** [series / 1000]: true division, cell by cell; a missing value stays
    missing (NaN). *)
Definition div_1000 (x : pyval) : exn + pyval :=
  match x with
  | VInt z => inr (VFloat (float_of_Z z / 1000))
  | VFloat f => inr (VFloat (f / 1000))
  | VNone => inr (VFloat nan)
  | VStr _ | VList _ | VTimestamp _ => inl TypeError
  end.

Fixpoint map_exn {A B} (f : A -> exn + B) (xs : list A) : exn + list B :=
  match xs with
  | [] => inr []
  | x :: xs' => match f x with
                | inl e => inl e
                | inr y => match map_exn f xs' with
                           | inl e => inl e
                           | inr ys => inr (y :: ys)
                           end
                end
  end.

(** The seconds a pandas timestamp can hold: its nanoseconds are a signed
    64-bit integer, which spans about the years 1677 to 2262. *)
Definition timestamp_max : float := 9223372036.854775807%float.

Definition in_timestamp_range (f : float) : bool :=
  PrimFloat.leb (- timestamp_max)%float f && PrimFloat.leb f timestamp_max.

(** [pd.to_datetime(series, unit='s')]: seconds out of the range of
    timestamps, infinite ones included, raise [OutOfBoundsDatetime] (a
    [ValueError]); a missing value (NaN) gives the missing timestamp. *)
Definition to_datetime_s (x : pyval) : exn + pyval :=
  match x with
  | VInt z => if in_timestamp_range (float_of_Z z)
              then inr (VTimestamp (float_of_Z z)) else inl ValueError
  | VFloat f => if in_timestamp_range f then inr (VTimestamp f)
                else if PrimFloat.is_nan f then inr (VTimestamp f)
                else inl ValueError
  | VNone => inr (VTimestamp nan)
  | VTimestamp f => inr (VTimestamp f)
  | VStr _ | VList _ => inl ValueError
  end.

(** [df.rename(columns={old: new}, inplace=True)] *)
Definition rename_column (old new : string) (df : DataFrame) : DataFrame :=
  mkDataFrame (map (fun l => if is_label old l then VStr new else l) (columns df))
              (values df).

(** [pd.Series(x, index=df.index)]: a scalar is repeated along the index, a
    list must have the length of the index. *)
Definition series_of (x : pyval) (n : nat) : exn + list pyval :=
  match x with
  | VList l => if (length l =? n)%nat then inr (map VStr l) else inl ValueError
  | _ => inr (repeat x n)
  end.

(** [df.itertuples()]: each row preceded by its index. *)
Definition itertuples (df : DataFrame) : list (list pyval) :=
  imap (fun i r => VInt (Z.of_nat i) :: r) (values df).

(** What [df.to_csv(path)] writes, as rows of fields: the header line, which
    starts with the empty label of the index, then every row preceded by its
    index. *)
Definition to_csv (df : DataFrame) : list (list pyval) :=
  (VStr "" :: columns df) :: itertuples df.

(** ** The script *)

(** The value of the variable [locations]: the tuple built from the
    literal pair or the table read from the file. *)
Inductive Locations : Type :=
| LocTuple (t : list pyval)
| LocFrame (df : DataFrame).

Definition isfile (w : World) (x : pyval) : exn + bool :=
  match x with
  | VStr s => inr (os_path_isfile w s)
  | _ => inl TypeError
  end.

Definition read_csv (w : World) (x : pyval) : exn + DataFrame :=
  match x with
  | VStr s => pd_read_csv w s
  | _ => inl ValueError
  end.

(** Lines 99-106: the binding of [locations], if any. *)
Definition read_locations (w : World) (args : gmap string pyval) : M (option Locations) :=
  let* file := py_getattr args "file" in
  if truthy file then
    let* file := py_getattr args "file" in
    let* found := lift (isfile w file) in
    if found then
      let* loc := py_getattr args "loc" in
      if truthy loc then
        py_print (VStr "not a valid location file, check path") ;;;
        ret None
      else
        let* location := py_getattr args "location" in
        let* latlon := lift (py_tuple location) in
        ret (Some (LocTuple (VStr "site" :: latlon)))
    else
      let* file := py_getattr args "file" in
      let* table := lift (read_csv w file) in
      ret (Some (LocFrame table))
  else ret None.

(** Lines 111-112: the binding of [radius], if any. *)
Definition fix_radius (v : py_version) (w : World) (args : gmap string pyval)
    : M (option float) :=
  let* r := py_getattr args "radius" in
  let* positive := lift (py_gt_zero v r) in
  if positive then
    let* r := py_getattr args "radius" in
    let* km := lift (py_float w r) in
    ret (Some (km * 0.008983)%float)
  else ret None.

(** Line 117. *)
Definition initialize (w : World) : M unit :=
  emit EInitialize ;;;
  match ee_Initialize w with
  | Some e => raise e
  | None => ret tt
  end.

(** Line 123: [locations.itertuples()]. *)
Definition iter_locations (locations : option Locations) : M (list (list pyval)) :=
  let* l := lookup_var "locations" locations in
  match l with
  | LocTuple _ => raise (AttributeError "itertuples")
  | LocFrame df => ret (itertuples df)
  end.

(** Lines 133-138: the geometry of one location. *)
Definition make_geometry (args : gmap string pyval) (radius : option float)
    (loc : list pyval) : M Geometry :=
  let* r := py_getattr args "radius" in
  if truthy r then
    let* x := lift (py_index loc 3) in
    let* d := lookup_var "radius" radius in
    let* west := lift (py_sub_float x d) in
    let* y := lift (py_index loc 2) in
    let* d := lookup_var "radius" radius in
    let* south := lift (py_sub_float y d) in
    let* x := lift (py_index loc 3) in
    let* d := lookup_var "radius" radius in
    let* east := lift (py_add_float x d) in
    let* y := lift (py_index loc 2) in
    let* d := lookup_var "radius" radius in
    let* north := lift (py_add_float y d) in
    ret (Rectangle [west; south; east; north])
  else
    let* x := lift (py_index loc 3) in
    let* y := lift (py_index loc 2) in
    ret (Point [x; y]).

(** Lines 141-144: the collection and the remote request. *)
Definition get_region (w : World) (args : gmap string pyval) (geometry : Geometry)
    : M (list (list pyval)) :=
  let* product := py_getattr args "product" in
  let* band := py_getattr args "band" in
  let* bands := lift (py_tuple band) in
  let* start := py_getattr args "start" in
  let* end_ := py_getattr args "end" in
  let* scale := py_getattr args "scale" in
  let* scale := lift (py_int w scale) in
  let q := mkQuery product bands start end_ geometry scale in
  emit (EGetRegion q) ;;;
  lift (ee_getRegion w q).

(** Lines 147-164: the table built from the region values. *)
Definition normalise (args : gmap string pyval) (region : list (list pyval)) : M DataFrame :=
  let df := from_records (skipn 1 region) in
  let* header := lift (py_first region) in
  let* df := lift (set_columns header df) in
  let* df := lift (drop_column "id" df) in
  let* time := lift (df_getattr "time" df) in
  let* time := lift (map_exn div_1000 time) in
  let df := set_column "time" time df in
  let* time := lift (df_getitem "time" df) in
  let* time := lift (map_exn to_datetime_s time) in
  let df := set_column "time" time df in
  let df := rename_column "time" "date" df in
  let* product := py_getattr args "product" in
  let* series := lift (series_of product (length (values df))) in
  ret (set_column "product" series df).

(** [df.to_csv(path)] *)
Definition write_csv (path : pyval) (df : DataFrame) : M unit :=
  match path with
  | VStr p => emit (EToCsv p (to_csv df))
  | _ => raise ValueError
  end.

(** Lines 126-172: the body of the loop. *)
Definition process (w : World) (args : gmap string pyval) (radius : option float)
    (loc : list pyval) : M unit :=
  let* name := lift (py_index loc 1) in
  let* message := lift (py_add (VStr "processing: ") name) in
  py_print message ;;;
  let* geometry := make_geometry args radius loc in
  let* region := get_region w args geometry in
  let* df := normalise args region in
  let* directory := py_getattr args "directory" in
  if truthy directory then
    let* directory := py_getattr args "directory" in
    let* name := lift (py_index loc 1) in
    let* path := lift (py_add directory name) in
    let* path := lift (py_add path (VStr "_gee_subset.csv")) in
    write_csv path df
  else emit (EPrintFrame df).

(** The script after the options are parsed (lines 99-172). *)
Definition run (v : py_version) (w : World) (args : gmap string pyval) : M unit :=
  let* locations := read_locations w args in
  let* radius := fix_radius v w args in
  initialize w ;;;
  let* rows := iter_locations locations in
  for_each rows (process w args radius).

(** Lines 95-172. *)
Definition main (v : py_version) (w : World) (cmd : CommandLine) : M unit :=
  let* args := getArgs cmd in
  run v w args.

(** ** The namespace built by [getArgs] *)

(** The shape of every namespace the parser returns. *)
Definition namespace (product : string) (band : list string) (start end_ radius scale : string)
    (location file directory : pyval) : gmap string pyval :=
  <["directory" := directory]> (<["file" := file]> (<["location" := location]>
  (<["scale" := VStr scale]> (<["radius" := VStr radius]> (<["end" := VStr end_]>
  (<["start" := VStr start]> (<["band" := VList band]> (<["product" := VStr product]> ∅)))))))).

Definition str_or_zero (x : pyval) : Prop := x = VInt 0 \/ exists s, x = VStr s.
Definition pair_or_zero (x : pyval) : Prop := x = VInt 0 \/ exists a b, x = VList [a; b].

(** ** Observations on traces *)

Definition is_query (ev : event) : bool :=
  match ev with EGetRegion _ => true | _ => false end.

(** Output of the script: what it prints and what it writes. *)
Definition is_output (ev : event) : bool :=
  match ev with EPrint _ | EPrintFrame _ | EToCsv _ _ => true | _ => false end.

(** An event that is neither output nor a request. *)
Definition silent (ev : event) : Prop := is_query ev = false /\ is_output ev = false.

(** The paths of the files written, in order. *)
Fixpoint written (t : list event) : list string :=
  match t with
  | EToCsv path _ :: t' => path :: written t'
  | _ :: t' => written t'
  | [] => []
  end.

(** The tables printed to the console, in order. *)
Fixpoint printed (t : list event) : list DataFrame :=
  match t with
  | EPrintFrame df :: t' => df :: printed t'
  | _ :: t' => printed t'
  | [] => []
  end.

(** The geometries sent to the remote service, in order. *)
Fixpoint queried (t : list event) : list Geometry :=
  match t with
  | EGetRegion q :: t' => q_geometry q :: queried t'
  | _ :: t' => queried t'
  | [] => []
  end.


(** Lines 169-172 for a directory argument [d], a location called [name]
    and its table: the file written or the table printed, when that step
    completes. *)
Definition sink (d : pyval) (name : string) (df : DataFrame) : option event :=
  if truthy d then
    match d with
    | VStr dir => Some (EToCsv ((dir ++ name) ++ "_gee_subset.csv") (to_csv df))
    | _ => None
    end
  else Some (EPrintFrame df).

(** The ways an iteration of the loop can go: it stops before the
    feedback line, after it, after the request, or it completes. *)
Inductive iteration (w : World) (args : gmap string pyval) (radius : option float)
    (loc : list pyval) : M unit -> Prop :=
| iteration_stops_first e :
    iteration w args radius loc ([], inl e)
| iteration_stops_after_feedback name e :
    loc !! 1%nat = Some (VStr name) ->
    iteration w args radius loc ([EPrint (VStr ("processing: " ++ name))], inl e)
| iteration_stops_after_request name q e :
    loc !! 1%nat = Some (VStr name) ->
    make_geometry args radius loc = ret (q_geometry q) ->
    iteration w args radius loc
      ([EPrint (VStr ("processing: " ++ name)); EGetRegion q], inl e)
| iteration_completes name q region df d ev :
    loc !! 1%nat = Some (VStr name) ->
    make_geometry args radius loc = ret (q_geometry q) ->
    ee_getRegion w q = inr region ->
    normalise args region = ret df ->
    args !! "directory" = Some d ->
    sink d name df = Some ev ->
    iteration w args radius loc
      ([EPrint (VStr ("processing: " ++ name)); EGetRegion q; ev], inr tt).

(** The objects printed with [print], other than tables, in order. *)
Fixpoint messages (t : list event) : list pyval :=
  match t with
  | EPrint x :: t' => x :: messages t'
  | _ :: t' => messages t'
  | [] => []
  end.

(** ** Paths *)

Fixpoint ends_with_slash (s : string) : bool :=
  match s with
  | EmptyString => false
  | String c EmptyString => Ascii.eqb c "/"
  | String _ s' => ends_with_slash s'
  end.

Definition starts_with_slash (s : string) : bool :=
  match s with
  | String c _ => Ascii.eqb c "/"
  | EmptyString => false
  end.

(** [os.path.join(dir, name)]: the path of the entry [name] of the
    directory [dir]. *)
Definition os_path_join (dir name : string) : string :=
  if starts_with_slash name then name
  else if String.eqb dir "" || ends_with_slash dir then dir ++ name
  else dir ++ "/" ++ name.

(** The path line 170 builds for a location, given the directory argument. *)
Definition csv_path (dir : string) (loc : list pyval) (path : string) : Prop :=
  exists name,
    loc !! 1%nat = Some (VStr name) /\ path = ((dir ++ name) ++ "_gee_subset.csv")%string.

(** The table of a location: the normalised answer to the request for its
    geometry. *)
Definition table_of (w : World) (args : gmap string pyval) (radius : option float)
    (loc : list pyval) (df : DataFrame) : Prop :=
  exists q region,
    make_geometry args radius loc = ret (q_geometry q) /\
    ee_getRegion w q = inr region /\ normalise args region = ret df.

(** The only diagnostic the script contains (line 102). *)
Definition warning : pyval := VStr "not a valid location file, check path".

(** ** The table the normaliser is expected to build *)

(** What follows describes the result column by column, for a raw header
    given by the names of its columns: [id] is dropped, [time] becomes
    [date] with its cells decoded, the other columns are kept, and [product]
    comes last. *)

(** A time of the region values: a number of milliseconds whose seconds are
    in the range of timestamps. *)
Definition is_time (x : pyval) : Prop :=
  match x with
  | VInt z => in_timestamp_range (float_of_Z z / 1000) = true
  | VFloat f => in_timestamp_range (f / 1000) = true
  | _ => False
  end.

(** Milliseconds after the epoch, as the timestamp that many thousandths of
    a second after the epoch. *)
Definition decode_ms (x : pyval) : pyval :=
  match x with
  | VInt z => VTimestamp (float_of_Z z / 1000)
  | VFloat f => VTimestamp (f / 1000)
  | _ => x
  end.

Definition kept (name : string) : bool := negb (String.eqb name "id").

Definition renamed (name : string) : string :=
  if String.eqb name "time" then "date" else name.

Definition expected_columns (names : list string) : list pyval :=
  (map VStr (map renamed (List.filter kept names)) ++ [VStr "product"])%list.

Fixpoint expected_cells (names : list string) (row : list pyval) : list pyval :=
  match names, row with
  | n :: names', x :: row' =>
      if String.eqb n "id" then expected_cells names' row'
      else (if String.eqb n "time" then decode_ms x else x) :: expected_cells names' row'
  | _, _ => []
  end.

Definition expected_row (product : pyval) (names : list string) (row : list pyval)
    : list pyval :=
  (expected_cells names row ++ [product])%list.

(** The conditions under which the normaliser is described: a raw header of
    distinct names with [id] and [time] and without [product], and records
    as long as the header whose time is a number of milliseconds in the
    range of timestamps. *)
Definition well_formed (names : list string) (rows : list (list pyval)) : Prop :=
  List.NoDup names /\ In "id" names /\ In "time" names /\ ~ In "product" names /\
  Forall (fun r => length r = length names /\
                   forall x, cell "time" (map VStr names) r = Some x -> is_time x) rows.

(** The columns of the table the script builds from a raw header: the
    names kept and renamed, and [product], which is added last unless a
    column of that name is already there. *)
Definition table_columns (names : list string) : list pyval :=
  let labels := map VStr (map renamed (List.filter kept names)) in
  if has_label "product" labels then labels else (labels ++ [VStr "product"])%list.

(** ** Sample collaborators and command lines *)

(** A table of two sites, as [pd.read_csv] returns it. *)
Definition sites : DataFrame :=
  mkDataFrame [VStr "name"; VStr "lat"; VStr "lon"]
    [[VStr "harvard"; VFloat 42.5; VFloat (-72.25)];
     [VStr "boulder"; VInt 40; VInt (-105)]].

(** Region values with the header [id, time, Y] and two records. *)
Definition stub_region : list (list pyval) :=
  [[VStr "id"; VStr "time"; VStr "Y"];
   [VInt 0; VInt 0; VInt 5];
   [VInt 1; VInt 1000; VInt 6]].

(** A world in which [sites.csv] is a file, the table of sites is served at
    a URL, and the remote service answers every request with [stub_region]. *)
Definition w0 : World := {|
  os_path_isfile := fun s => String.eqb s "sites.csv";
  pd_read_csv := fun s =>
    if String.eqb s "https://example.org/sites.csv" then inr sites
    else inl (External "FileNotFoundError");
  float_of_str := fun s =>
    if String.eqb s "0" then Some 0%float
    else if String.eqb s "2" then Some 2%float
    else None;
  int_of_str := fun s => if String.eqb s "30" then Some 30%Z else None;
  ee_Initialize := None;
  ee_getRegion := fun _ => inr stub_region
|}.

(** [-p X -b Y -loc 40.0 -105.0] *)
Definition cmd_literal : CommandLine :=
  [("-p", ["X"]); ("-b", ["Y"]); ("-loc", ["40.0"; "-105.0"])].

(** [-p X -b Y -f sites.csv] *)
Definition cmd_file : CommandLine :=
  [("-p", ["X"]); ("-b", ["Y"]); ("-f", ["sites.csv"])].

(** [-p X -b Y -f https://example.org/sites.csv] *)
Definition cmd_url : CommandLine :=
  [("-p", ["X"]); ("-b", ["Y"]); ("-f", ["https://example.org/sites.csv"])].

(** [-p X -b Y -f missing.csv] *)
Definition cmd_missing : CommandLine :=
  [("-p", ["X"]); ("-b", ["Y"]); ("-f", ["missing.csv"])].

(** [-p X -b Y -f https://example.org/sites.csv -loc 40.0 -105.0] *)
Definition cmd_both : CommandLine :=
  [("-p", ["X"]); ("-b", ["Y"]); ("-f", ["https://example.org/sites.csv"]);
   ("-loc", ["40.0"; "-105.0"])].

(** [-p X -b Y -f sites.csv -loc 40.0 -105.0] *)
Definition cmd_both_file : CommandLine :=
  [("-p", ["X"]); ("-b", ["Y"]); ("-f", ["sites.csv"]); ("-loc", ["40.0"; "-105.0"])].

(** [-p X -b Y -f https://example.org/sites.csv -r 2] *)
Definition cmd_radius : CommandLine :=
  [("-p", ["X"]); ("-b", ["Y"]); ("-f", ["https://example.org/sites.csv"]); ("-r", ["2"])].

(** [-p X -b Y -f https://example.org/sites.csv -d out] *)
Definition cmd_directory : CommandLine :=
  [("-p", ["X"]); ("-b", ["Y"]); ("-f", ["https://example.org/sites.csv"]); ("-d", ["out"])].

(** [-p X -b Y -loc 40.0 -105.0 -r abc] *)
Definition cmd_bad_radius : CommandLine :=
  [("-p", ["X"]); ("-b", ["Y"]); ("-loc", ["40.0"; "-105.0"]); ("-r", ["abc"])].

(** An option of the parser appears on the command line, in one of its
    spellings. *)
Definition typed (cmd : CommandLine) (a : Action) : bool :=
  existsb (fun ox => names a (fst ox)) cmd.

(** The command lines made of the nine options of [getArgs] only, each typed
    in one of its declared spellings.  The help option that argparse adds on
    its own ([-h], [--help]: the usage is printed and the exit status is 0)
    and abbreviations of the long spellings are not among them. *)
Definition declared (cmd : CommandLine) : bool :=
  forallb (fun ox => existsb (fun a => names a (fst ox)) parser) cmd.

(** A table whose second row has a name and nothing else. *)
Definition sites_short : DataFrame :=
  mkDataFrame [VStr "name"; VStr "lat"; VStr "lon"]
    [[VStr "harvard"; VFloat 42.5; VFloat (-72.25)];
     [VStr "nowhere"];
     [VStr "boulder"; VInt 40; VInt (-105)]].

(** The world [w0] with another table behind every path. *)
Definition with_table (table : DataFrame) : World := {|
  os_path_isfile := fun _ => false;
  pd_read_csv := fun _ => inr table;
  float_of_str := float_of_str w0;
  int_of_str := int_of_str w0;
  ee_Initialize := None;
  ee_getRegion := ee_getRegion w0
|}.

(** [-p X -b Y -f https://example.org/sites.csv -sc fine] *)
Definition cmd_bad_scale : CommandLine :=
  [("-p", ["X"]); ("-b", ["Y"]); ("-f", ["https://example.org/sites.csv"]);
   ("-sc", ["fine"])].

(** A table with its header and no row. *)
Definition no_sites : DataFrame := mkDataFrame [VStr "name"; VStr "lat"; VStr "lon"] [].

(** * Properties *)

(** ** Laws of the monad *)

Lemma bind_ret {A B} (a : A) (k : A -> M B) : bind (ret a) k = k a.
Proof. unfold bind, ret. destruct (k a) as [t r]. reflexivity. Qed.

Lemma bind_lift_inr {A B} (a : A) (k : A -> M B) : bind (lift (inr a)) k = k a.
Proof. apply bind_ret. Qed.

Lemma bind_raise {A B} (e : exn) (k : A -> M B) : bind (raise e) k = raise e.
Proof. reflexivity. Qed.

Lemma bind_lift_inl {A B} (e : exn) (k : A -> M B) : bind (lift (inl e)) k = raise e.
Proof. reflexivity. Qed.

Lemma bind_emit {B} (ev : event) (k : unit -> M B) :
  bind (emit ev) k = (ev :: fst (k tt), snd (k tt)).
Proof. unfold bind, emit. destruct (k tt) as [t r]. reflexivity. Qed.

Lemma bind_assoc {A B C} (m : M A) (k : A -> M B) (h : B -> M C) :
  bind (bind m k) h = bind m (fun a => bind (k a) h).
Proof.
  destruct m as [t [e | a]]; [reflexivity |].
  unfold bind at 2 3. destruct (k a) as [t1 [e1 | b]]; simpl.
  - reflexivity.
  - destruct (h b) as [t2 r2]. rewrite app_assoc. reflexivity.
Qed.

Lemma bind_ext {A B} (m : M A) (k k' : A -> M B) :
  (forall a, k a = k' a) -> bind m k = bind m k'.
Proof.
  intros H. destruct m as [t [e | a]]; [reflexivity |]. unfold bind. rewrite H. reflexivity.
Qed.

(** Run the next steps of a computation whose results are known. *)
Ltac mstep := repeat (progress (cbn iota; rewrite ?bind_lift_inr, ?bind_ret)).

Lemma getattr_some (args : gmap string pyval) name x :
  args !! name = Some x -> py_getattr args name = ret x.
Proof. intros H. unfold py_getattr. rewrite H. reflexivity. Qed.

Lemma getattr_none (args : gmap string pyval) name :
  args !! name = None -> py_getattr args name = raise (AttributeError name).
Proof. intros H. unfold py_getattr. rewrite H. reflexivity. Qed.

(** ** The namespace built by [getArgs]: facts *)

Lemma convert_none xs v : convert NargsNone xs = inr v -> exists s, v = VStr s.
Proof.
  destruct xs as [| x [| y xs]]; simpl; intros H; try discriminate.
  injection H as <-. eauto.
Qed.

Lemma convert_plus xs v : convert NargsPlus xs = inr v -> exists l, v = VList l /\ l <> [].
Proof.
  destruct xs as [| x xs]; simpl; intros H; try discriminate.
  injection H as <-. eexists. split; [reflexivity | discriminate].
Qed.

Lemma convert_two xs v : convert (NargsN 2) xs = inr v -> exists a b, v = VList [a; b].
Proof.
  destruct xs as [| a [| b [| c xs]]]; simpl; intros H; try discriminate.
  injection H as <-. eauto.
Qed.

Lemma store_inr a cmd acc ns' :
  store a cmd acc = inr ns' ->
  exists ns v, acc = inr ns /\ parse_action cmd a = inr v /\ ns' = <[dest a := v]> ns.
Proof.
  unfold store. destruct acc as [e | ns]; [discriminate |].
  destruct (parse_action cmd a) as [e | v]; [discriminate |].
  intros H. injection H as <-. eauto.
Qed.

Lemma parse_action_inr cmd a v :
  parse_action cmd a = inr v ->
  (exists xs, convert (nargs a) xs = inr v) \/ (required a = false /\ v = default a).
Proof.
  unfold parse_action. destruct (supplied cmd a) as [xs |].
  - eauto.
  - destruct (required a); [discriminate |]. intros H. injection H as <-. auto.
Qed.

Lemma parse_args_namespace cmd args :
  parse_args cmd = inr args ->
  exists product band start end_ radius scale location file directory,
    args = namespace product band start end_ radius scale location file directory
    /\ band <> [] /\ pair_or_zero location /\ str_or_zero file /\ str_or_zero directory.
Proof.
  unfold parse_args. destruct (forallb recognised cmd); [| discriminate].
  unfold parser. cbn [fold_left]. intros H.
  apply store_inr in H as (n8 & directory & H & Hd & ->).
  apply store_inr in H as (n7 & file & H & Hf & ->).
  apply store_inr in H as (n6 & location & H & Hl & ->).
  apply store_inr in H as (n5 & scale & H & Hsc & ->).
  apply store_inr in H as (n4 & radius & H & Hr & ->).
  apply store_inr in H as (n3 & end_ & H & He & ->).
  apply store_inr in H as (n2 & start & H & Hs & ->).
  apply store_inr in H as (n1 & band & H & Hb & ->).
  apply store_inr in H as (n0 & product & H & Hp & ->).
  injection H as <-.
  apply parse_action_inr in Hp as [[xs Hp] | [Hp _]]; [| discriminate].
  apply convert_none in Hp as [p ->].
  apply parse_action_inr in Hb as [[xs' Hb] | [Hb _]]; [| discriminate].
  apply convert_plus in Hb as (b & -> & Hb).
  assert (Hstr : forall a x, nargs a = NargsNone -> (exists s, default a = VStr s) ->
                 parse_action cmd a = inr x -> exists s, x = VStr s).
  { intros a x Hn [s0 Hd0] Hx. apply parse_action_inr in Hx as [[ys Hx] | [_ ->]].
    - rewrite Hn in Hx. eapply convert_none, Hx.
    - eauto. }
  assert (Hopt : forall a x, nargs a = NargsNone -> default a = VInt 0 ->
                 parse_action cmd a = inr x -> str_or_zero x).
  { intros a x Hn Hd0 Hx. apply parse_action_inr in Hx as [[ys Hx] | [_ ->]].
    - rewrite Hn in Hx. right. eapply convert_none, Hx.
    - left. exact Hd0. }
  apply Hstr in Hs as [s ->]; [| reflexivity | simpl; eauto].
  apply Hstr in He as [e ->]; [| reflexivity | simpl; eauto].
  apply Hstr in Hr as [r ->]; [| reflexivity | simpl; eauto].
  apply Hstr in Hsc as [sc ->]; [| reflexivity | simpl; eauto].
  apply Hopt in Hf; [| reflexivity | reflexivity].
  apply Hopt in Hd; [| reflexivity | reflexivity].
  assert (Hl' : pair_or_zero location).
  { apply parse_action_inr in Hl as [[ys Hl] | [_ ->]].
    - right. eapply convert_two, Hl.
    - left. reflexivity. }
  exists p, b, s, e, r, sc, location, file, directory.
  split; [reflexivity | auto].
Qed.

Lemma namespace_lookup product band start end_ radius scale location file directory :
  let args := namespace product band start end_ radius scale location file directory in
  args !! "product" = Some (VStr product) /\ args !! "band" = Some (VList band) /\
  args !! "start" = Some (VStr start) /\ args !! "end" = Some (VStr end_) /\
  args !! "radius" = Some (VStr radius) /\ args !! "scale" = Some (VStr scale) /\
  args !! "location" = Some location /\ args !! "file" = Some file /\
  args !! "directory" = Some directory /\ args !! "loc" = None.
Proof. unfold namespace. repeat split; reflexivity. Qed.

(** Every attribute the script reads, but [loc], is in the namespace. *)
Lemma parse_args_attributes cmd args :
  parse_args cmd = inr args ->
  args !! "loc" = None /\
  (exists s, args !! "radius" = Some (VStr s)) /\
  (exists s, args !! "product" = Some (VStr s)) /\
  (exists x, args !! "file" = Some x /\ str_or_zero x) /\
  (exists x, args !! "directory" = Some x /\ str_or_zero x) /\
  (exists x, args !! "location" = Some x /\ pair_or_zero x).
Proof.
  intros H. apply parse_args_namespace in H
    as (p & b & s & e & r & sc & l & f & d & -> & Hb & Hl & Hf & Hd).
  destruct (namespace_lookup p b s e r sc l f d)
    as (Hp' & Hb' & Hs' & He' & Hr' & Hsc' & Hl' & Hf' & Hd' & Hloc).
  repeat split; eauto.
Qed.

(** ** The resolver of locations (lines 99-106) *)

Lemma truthy_str s : s <> "" -> truthy (VStr s) = true.
Proof.
  intros H. simpl. destruct (String.eqb_spec s ""); [contradiction | reflexivity].
Qed.

Lemma read_locations_no_file w (args : gmap string pyval) file :
  args !! "file" = Some file -> truthy file = false ->
  read_locations w args = ret None.
Proof.
  intros Hf Ht. unfold read_locations.
  rewrite (getattr_some _ _ _ Hf), bind_ret, Ht. reflexivity.
Qed.

Lemma read_locations_existing w (args : gmap string pyval) f :
  args !! "file" = Some (VStr f) -> f <> "" -> os_path_isfile w f = true ->
  args !! "loc" = None ->
  read_locations w args = raise (AttributeError "loc").
Proof.
  intros Hf Hne Hfile Hloc. unfold read_locations.
  rewrite (getattr_some _ _ _ Hf), !bind_ret, (truthy_str _ Hne).
  unfold isfile. rewrite Hfile, bind_lift_inr.
  rewrite (getattr_none _ _ Hloc). reflexivity.
Qed.

Lemma read_locations_missing w (args : gmap string pyval) f :
  args !! "file" = Some (VStr f) -> f <> "" -> os_path_isfile w f = false ->
  read_locations w args =
    match pd_read_csv w f with
    | inr table => ret (Some (LocFrame table))
    | inl e => raise e
    end.
Proof.
  intros Hf Hne Hfile. unfold read_locations.
  rewrite (getattr_some _ _ _ Hf), !bind_ret, (truthy_str _ Hne).
  unfold isfile. rewrite Hfile, bind_lift_inr. unfold read_csv.
  destruct (pd_read_csv w f) as [e | table]; reflexivity.
Qed.

Lemma main_run v w cmd args :
  parse_args cmd = inr args -> main v w cmd = run v w args.
Proof. intros H. unfold main, getArgs. rewrite H. apply bind_lift_inr. Qed.

(** The conversion of the radius has no observable effect. *)
Lemma fix_radius_pure v w args : trace (fix_radius v w args) = [].
Proof.
  unfold fix_radius, py_getattr.
  destruct (args !! "radius") as [r |]; [| reflexivity].
  rewrite bind_ret.
  destruct (py_gt_zero v r) as [e | [|]]; [reflexivity | | reflexivity].
  rewrite bind_lift_inr, bind_ret.
  destruct (py_float w r) as [e | km]; reflexivity.
Qed.

(** A run without a file: the radius, the session, then the unbound name. *)
Lemma run_without_file v w (args : gmap string pyval) file :
  args !! "file" = Some file -> truthy file = false ->
  run v w args =
    match outcome (fix_radius v w args) with
    | inl e => raise e
    | inr _ => match ee_Initialize w with
               | Some e => ([EInitialize], inl e)
               | None => ([EInitialize], inl (NameError "locations"))
               end
    end.
Proof.
  intros Hf Ht. unfold run.
  rewrite (read_locations_no_file _ _ _ Hf Ht), bind_ret.
  pose proof (fix_radius_pure v w args) as Hp.
  destruct (fix_radius v w args) as [t [e | radius]]; simpl in Hp; subst t.
  - reflexivity.
  - simpl outcome. unfold initialize.
    destruct (ee_Initialize w) as [e |]; reflexivity.
Qed.

Lemma run_missing_file v w (args : gmap string pyval) f table :
  args !! "file" = Some (VStr f) -> f <> "" -> os_path_isfile w f = false ->
  pd_read_csv w f = inr table ->
  run v w args =
    (let* radius := fix_radius v w args in
     initialize w ;;;
     for_each (itertuples table) (process w args radius)).
Proof.
  intros Hf Hne Hfile Hread. unfold run.
  rewrite (read_locations_missing _ _ _ Hf Hne Hfile), Hread, bind_ret.
  apply bind_ext; intros radius. apply bind_ext; intros _.
  unfold iter_locations, lookup_var. rewrite !bind_ret. reflexivity.
Qed.

Lemma parser_dests : map dest parser =
  ["product"; "band"; "start"; "end"; "radius"; "scale"; "location"; "file"; "directory"].
Proof. reflexivity. Qed.

(** C10: when [--file] names an existing file the script reads [args.loc];
    no option of the parser is stored under [loc] (the location option is
    stored under [location]), so the run stops there with an attribute
    error, before the session is opened and before any location is
    queried. *)
Theorem existing_file_attribute_error v w cmd args f :
  parse_args cmd = inr args ->
  args !! "file" = Some (VStr f) -> f <> "" -> os_path_isfile w f = true ->
  ~ In "loc" (map dest parser) /\
  args !! "loc" = None /\
  main v w cmd = ([], inl (AttributeError "loc")).
Proof.
  intros Hparse Hf Hne Hfile.
  destruct (parse_args_attributes _ _ Hparse) as (Hloc & _).
  split; [| split].
  - rewrite parser_dests. simpl. intros H.
    repeat (destruct H as [H | H]; [discriminate H |]). exact H.
  - exact Hloc.
  - rewrite (main_run _ _ _ _ Hparse). unfold run.
    rewrite (read_locations_existing _ _ _ Hf Hne Hfile Hloc). reflexivity.
Qed.

Lemma parse_cmd_file :
  parse_args cmd_file =
    inr (namespace "X" ["Y"] "2013-01-01" "2014-12-31" "0" "30"
           (VInt 0) (VStr "sites.csv") (VInt 0)).
Proof. reflexivity. Qed.

Lemma existing_file_attribute_error_witness :
  main Py3 w0 cmd_file = ([], inl (AttributeError "loc")).
Proof.
  refine (proj2 (proj2 (existing_file_attribute_error Py3 w0 cmd_file _ "sites.csv"
                          parse_cmd_file _ _ _))).
  - reflexivity.
  - discriminate.
  - reflexivity.
Defined.

Lemma parse_cmd_url :
  parse_args cmd_url =
    inr (namespace "X" ["Y"] "2013-01-01" "2014-12-31" "0" "30"
           (VInt 0) (VStr "https://example.org/sites.csv") (VInt 0)).
Proof. reflexivity. Qed.

(** ** Runs without a location file *)

Lemma run_without_file_fails v w (args : gmap string pyval) file :
  args !! "file" = Some file -> truthy file = false ->
  (exists e, outcome (run v w args) = inl e) /\ Forall silent (trace (run v w args)).
Proof.
  intros Hf Ht. rewrite (run_without_file v w args file Hf Ht).
  destruct (outcome (fix_radius v w args)) as [e | radius].
  - split; [eexists; reflexivity | constructor].
  - destruct (ee_Initialize w) as [e |]; (split; [eexists; reflexivity |]);
      repeat constructor.
Qed.

Lemma parse_cmd_literal :
  parse_args cmd_literal =
    inr (namespace "X" ["Y"] "2013-01-01" "2014-12-31" "0" "30"
           (VList ["40.0"; "-105.0"]) (VInt 0) (VInt 0)).
Proof. reflexivity. Qed.

Lemma parse_cmd_bad_radius :
  parse_args cmd_bad_radius =
    inr (namespace "X" ["Y"] "2013-01-01" "2014-12-31" "abc" "30"
           (VList ["40.0"; "-105.0"]) (VInt 0) (VInt 0)).
Proof. reflexivity. Qed.

(** C1, evaluated on [-p X -b Y -loc 40.0 -105.0]: whatever the interpreter
    and the collaborators, the run ends with an exception, prints nothing,
    writes nothing and sends no request; the single location is never
    processed.  Under Python 2 with a session that opens it is the unbound
    name [locations]. *)
Theorem literal_location_never_processed v w :
  (exists e, outcome (main v w cmd_literal) = inl e) /\
  Forall silent (trace (main v w cmd_literal)) /\
  read_locations w (namespace "X" ["Y"] "2013-01-01" "2014-12-31" "0" "30"
                      (VList ["40.0"; "-105.0"]) (VInt 0) (VInt 0)) = ret None /\
  main Py2 w0 cmd_literal = ([EInitialize], inl (NameError "locations")).
Proof.
  rewrite (main_run v w _ _ parse_cmd_literal).
  destruct (run_without_file_fails v w
              (namespace "X" ["Y"] "2013-01-01" "2014-12-31" "0" "30"
                 (VList ["40.0"; "-105.0"]) (VInt 0) (VInt 0)) (VInt 0))
    as [He Ht]; [reflexivity | reflexivity |].
  split; [exact He | split; [exact Ht | split; [| reflexivity]]].
  apply (read_locations_no_file w _ (VInt 0)); reflexivity.
Qed.

(** C9 as stated fails: without [--file] and with [-r abc] the run ends
    with the conversion error of [float] under Python 2 and with the type
    error of the comparison under Python 3, not with the unbound name. *)
Lemma no_file_other_error :
  (exists args, parse_args cmd_bad_radius = inr args /\ args !! "file" = Some (VInt 0)) /\
  main Py2 w0 cmd_bad_radius = ([], inl ValueError) /\
  main Py3 w0 cmd_bad_radius = ([], inl TypeError) /\
  main Py3 w0 cmd_literal = ([], inl TypeError).
Proof.
  split; [| split; [| split]; reflexivity].
  eexists. split; [exact parse_cmd_bad_radius | reflexivity].
Qed.

(** C9, amended: when [--file] is left at its falsy default the variable
    [locations] is never assigned and the run ends with an exception
    without having printed, written or requested anything; the exception is
    the unbound name [locations] whenever the conversion of the radius
    and the opening of the session complete, and otherwise the exception of
    the one of these two steps that fails. *)
Theorem no_file_no_query v w cmd args file :
  parse_args cmd = inr args ->
  args !! "file" = Some file -> truthy file = false ->
  read_locations w args = ret None /\
  (exists e, outcome (main v w cmd) = inl e) /\
  Forall silent (trace (main v w cmd)) /\
  main v w cmd =
    match outcome (fix_radius v w args) with
    | inl e => ([], inl e)
    | inr _ => match ee_Initialize w with
               | Some e => ([EInitialize], inl e)
               | None => ([EInitialize], inl (NameError "locations"))
               end
    end.
Proof.
  intros Hparse Hf Ht. rewrite (main_run _ _ _ _ Hparse).
  destruct (run_without_file_fails v w args file Hf Ht) as [He Htr].
  split; [exact (read_locations_no_file w args file Hf Ht) |].
  split; [exact He |]. split; [exact Htr |].
  exact (run_without_file v w args file Hf Ht).
Qed.

Lemma no_file_no_query_witness :
  main Py2 w0 cmd_literal = ([EInitialize], inl (NameError "locations")).
Proof.
  refine (proj2 (proj2 (proj2 (no_file_no_query Py2 w0 cmd_literal _ (VInt 0)
                                 parse_cmd_literal _ _))));
    reflexivity.
Defined.

(** ** The radius and the geometry (lines 111-112 and 133-138) *)

Lemma py_float_nonempty w s km : py_float w (VStr s) = inr km -> s <> "".
Proof.
  simpl. destruct (String.eqb_spec s ""); [discriminate | auto].
Qed.

(** When the radius is a string the comparison of line 111 decides by the
    interpreter alone. *)
Lemma fix_radius_str v w (args : gmap string pyval) s :
  args !! "radius" = Some (VStr s) ->
  fix_radius v w args =
    match v with
    | Py3 => raise TypeError
    | Py2 => match py_float w (VStr s) with
             | inr km => ret (Some (km * 0.008983)%float)
             | inl e => raise e
             end
    end.
Proof.
  intros Hr. unfold fix_radius. rewrite (getattr_some _ _ _ Hr), !bind_ret.
  destruct v; simpl py_gt_zero.
  - rewrite bind_lift_inr. destruct (py_float w (VStr s)); reflexivity.
  - reflexivity.
Qed.

Lemma make_geometry_rectangle (args : gmap string pyval) r d i name lat lon rest x y :
  args !! "radius" = Some r -> truthy r = true ->
  py_num lat = inr y -> py_num lon = inr x ->
  make_geometry args (Some d) (i :: name :: lat :: lon :: rest) =
    ret (Rectangle [VFloat (x - d); VFloat (y - d); VFloat (x + d); VFloat (y + d)]).
Proof.
  intros Hr Ht Hy Hx. unfold make_geometry.
  rewrite (getattr_some _ _ _ Hr), bind_ret, Ht.
  unfold py_index, lookup_var, py_sub_float, py_add_float. simpl lookup.
  repeat (progress (mstep; rewrite ?Hx, ?Hy)). reflexivity.
Qed.

Lemma make_geometry_point (args : gmap string pyval) r radius i name lat lon rest :
  args !! "radius" = Some r -> truthy r = false ->
  make_geometry args radius (i :: name :: lat :: lon :: rest) = ret (Point [lon; lat]).
Proof.
  intros Hr Ht. unfold make_geometry.
  rewrite (getattr_some _ _ _ Hr), bind_ret, Ht. reflexivity.
Qed.

(** No run of the parsed script ever reaches the point branch of line 138:
    when the conversion of the radius succeeds, the radius is a non-empty
    string, which is true in line 133. *)
Lemma never_a_point v w cmd args radius loc g :
  parse_args cmd = inr args ->
  fix_radius v w args = ret radius ->
  make_geometry args radius loc = ret g ->
  exists coords, g = Rectangle coords.
Proof.
  intros Hparse Hfix Hgeo.
  destruct (parse_args_attributes _ _ Hparse) as (_ & [s Hr] & _).
  rewrite (fix_radius_str v w args s Hr) in Hfix.
  destruct v; [| discriminate].
  destruct (py_float w (VStr s)) as [e | km] eqn:Hkm; [discriminate |].
  apply py_float_nonempty in Hkm.
  revert Hgeo. unfold make_geometry.
  rewrite (getattr_some _ _ _ Hr), bind_ret, (truthy_str _ Hkm).
  unfold py_index, lookup_var, py_sub_float, py_add_float.
  destruct (loc !! 3) as [lon |]; [| discriminate]. mstep.
  destruct radius as [d |]; [| discriminate]. mstep.
  destruct (py_num lon) as [e | x] eqn:Hx; [discriminate |]. mstep.
  destruct (loc !! 2) as [lat |]; [| discriminate]. mstep.
  destruct (py_num lat) as [e | y] eqn:Hy; [discriminate |].
  repeat (progress (mstep; rewrite ?Hx, ?Hy)).
  unfold ret. intros H. injection H as <-. eauto.
Qed.

(** C3: for a location and a radius typed as a string that [float] reads as
    [km > 0], the radius in degrees is [km * 0.008983] (line 112, reached
    under Python 2; Python 3 refuses the comparison of line 111) and,
    whenever line 112 has bound it, the geometry is the rectangle west
    [lon - km * 0.008983], south [lat - km * 0.008983], east
    [lon + km * 0.008983], north [lat + km * 0.008983]. *)
Theorem rectangle_bounds v w (args : gmap string pyval) s km i name lat lon rest x y :
  args !! "radius" = Some (VStr s) ->
  py_float w (VStr s) = inr km -> PrimFloat.ltb 0 km = true ->
  py_num lat = inr y -> py_num lon = inr x ->
  fix_radius Py2 w args = ret (Some (km * 0.008983)%float) /\
  (forall radius, fix_radius v w args = ret radius ->
     make_geometry args radius (i :: name :: lat :: lon :: rest) =
       ret (Rectangle [VFloat (x - km * 0.008983); VFloat (y - km * 0.008983);
                       VFloat (x + km * 0.008983); VFloat (y + km * 0.008983)])).
Proof.
  intros Hr Hkm Hpos Hy Hx. split.
  - rewrite (fix_radius_str Py2 w args s Hr), Hkm. reflexivity.
  - intros radius Hfix. rewrite (fix_radius_str v w args s Hr), Hkm in Hfix.
    destruct v; [| discriminate]. unfold ret in Hfix. injection Hfix as <-.
    apply (make_geometry_rectangle args (VStr s)); auto.
    apply truthy_str. eapply py_float_nonempty, Hkm.
Qed.

Lemma rectangle_bounds_witness :
  make_geometry
    (namespace "X" ["Y"] "2013-01-01" "2014-12-31" "2" "30"
       (VInt 0) (VStr "https://example.org/sites.csv") (VInt 0))
    (Some (2 * 0.008983)%float)
    [VInt 0; VStr "harvard"; VFloat 42.5; VFloat (-72.25)] =
  ret (Rectangle [VFloat (-72.25 - 2 * 0.008983); VFloat (42.5 - 2 * 0.008983);
                  VFloat (-72.25 + 2 * 0.008983); VFloat (42.5 + 2 * 0.008983)]).
Proof.
  refine (proj2 (rectangle_bounds Py2 w0 _ "2" 2%float (VInt 0) (VStr "harvard")
                   (VFloat 42.5) (VFloat (-72.25)) [] (-72.25)%float 42.5%float
                   _ _ _ _ _) _ _);
    reflexivity.
Defined.

(** ** The normaliser (lines 147-164) *)

Lemma width_uniform k (rows : list (list pyval)) :
  rows <> [] -> Forall (fun r => length r = k) rows -> width rows = k.
Proof.
  intros Hne H. induction H as [| r rows Hr Hrows IH]; [contradiction |].
  simpl. destruct rows as [| r' rows'].
  - simpl. rewrite Hr. apply Nat.max_0_r.
  - rewrite IH by discriminate. rewrite Hr. apply Nat.max_id.
Qed.

Lemma pad_full k (r : list pyval) : length r = k -> pad k r = r.
Proof.
  intros <-. unfold pad. rewrite Nat.sub_diag. simpl. apply app_nil_r.
Qed.

Lemma from_records_uniform k (rows : list (list pyval)) :
  rows <> [] -> Forall (fun r => length r = k) rows ->
  from_records rows = mkDataFrame (map (fun i => VInt (Z.of_nat i)) (seq 0 k)) rows.
Proof.
  intros Hne H. unfold from_records. rewrite (width_uniform k rows Hne H). f_equal.
  induction H as [| r rows' Hr Hrows IH]; [reflexivity |].
  simpl. rewrite (pad_full k r Hr). f_equal.
  destruct rows' as [| r' rows'']; [reflexivity |]. apply IH. discriminate.
Qed.

Lemma from_records_empty : from_records [] = mkDataFrame [] [].
Proof. reflexivity. Qed.

Lemma is_label_str name s : is_label name (VStr s) = String.eqb s name.
Proof. reflexivity. Qed.

Lemma has_label_in name names :
  has_label name (map VStr names) = true <-> In name names.
Proof.
  unfold has_label. rewrite existsb_exists. split.
  - intros (l & Hin & Hl). apply in_map_iff in Hin as (s & <- & Hin).
    simpl in Hl. apply String.eqb_eq in Hl. subst. exact Hin.
  - intros Hin. exists (VStr name). split; [apply in_map; exact Hin |].
    simpl. apply String.eqb_refl.
Qed.

Lemma has_label_not_in name names :
  ~ In name names -> has_label name (map VStr names) = false.
Proof.
  intros H. destruct (has_label name (map VStr names)) eqn:E; [| reflexivity].
  apply has_label_in in E. contradiction.
Qed.

Lemma map_exn_inr {A B} (f : A -> exn + B) (g : A -> B) xs :
  Forall (fun x => f x = inr (g x)) xs -> map_exn f xs = inr (map g xs).
Proof.
  induction 1 as [| x xs Hx Hxs IH]; [reflexivity |].
  simpl. rewrite Hx, IH. reflexivity.
Qed.

Lemma zip_with_map_diag {A B C} (h : A -> B -> C) (g : A -> B) (l : list A) :
  zip_with h l (map g l) = map (fun a => h a (g a)) l.
Proof. induction l as [| a l IH]; [reflexivity |]. simpl. rewrite IH. reflexivity. Qed.

#[local] Arguments String.eqb : simpl never.

Lemma zip_with_repeat {A B C} (h : A -> B -> C) (b : B) (l : list A) :
  zip_with h l (repeat b (length l)) = map (fun a => h a b) l.
Proof. induction l as [| a l IH]; [reflexivity |]. simpl. rewrite IH. reflexivity. Qed.

Lemma select_header names :
  select (map kept names) (map VStr names) = map VStr (List.filter kept names).
Proof.
  induction names as [| n names IH]; [reflexivity |].
  simpl. destruct (kept n); simpl; rewrite IH; reflexivity.
Qed.

Lemma renamed_header names :
  map (fun l => if is_label "time" l then VStr "date" else l) (map VStr names)
  = map VStr (map renamed names).
Proof.
  rewrite !map_map. apply map_ext. intros n. unfold renamed. simpl.
  destruct (String.eqb n "time"); reflexivity.
Qed.

Lemma cell_nil name labels : cell name labels [] = None.
Proof. destruct labels; reflexivity. Qed.

Lemma kept_id : kept "id" = false.
Proof. reflexivity. Qed.

Lemma kept_other n : n <> "id" -> kept n = true.
Proof. intros H. unfold kept. destruct (String.eqb_spec n "id"); [contradiction | reflexivity]. Qed.

Lemma cell_select name names row :
  name <> "id" ->
  cell name (map VStr (List.filter kept names)) (select (map kept names) row)
  = cell name (map VStr names) row.
Proof.
  intros Hname. revert row. induction names as [| n names IH]; intros row.
  - destruct row; reflexivity.
  - destruct row as [| x row]; simpl.
    + apply cell_nil.
    + destruct (String.eqb_spec n "id") as [-> | Hn].
      * rewrite kept_id.
        destruct (String.eqb_spec "id" name) as [E | _]; [congruence | apply IH].
      * rewrite (kept_other n Hn). simpl.
        destruct (String.eqb n name); [reflexivity | apply IH].
Qed.

Lemma cell_replace name labels row v x :
  cell name labels row = Some x ->
  cell name labels (replace_cell name labels row v) = Some v.
Proof.
  revert row. induction labels as [| l labels IH]; intros row H.
  - destruct row; discriminate.
  - destruct row as [| y row]; [discriminate |]. simpl in *.
    destruct (is_label name l); [reflexivity | apply IH, H].
Qed.

Lemma replace_replace name labels row v1 v2 :
  replace_cell name labels (replace_cell name labels row v1) v2
  = replace_cell name labels row v2.
Proof.
  revert row. induction labels as [| l labels IH]; intros row.
  - destruct row; reflexivity.
  - destruct row as [| y row]; [reflexivity |]. simpl.
    rewrite IH. destruct (is_label name l); reflexivity.
Qed.

Lemma cells_without_time names row v :
  ~ In "time" names ->
  replace_cell "time" (map VStr (List.filter kept names)) (select (map kept names) row) v
    = select (map kept names) row /\
  expected_cells names row = select (map kept names) row.
Proof.
  revert row. induction names as [| n names IH]; intros row Hn.
  - destruct row; split; reflexivity.
  - destruct row as [| x row].
    + simpl. destruct (kept n); split; try reflexivity.
      simpl. destruct (map VStr (List.filter kept names)); reflexivity.
    + assert (Hn' : ~ In "time" names) by (intros H; apply Hn; right; exact H).
      assert (Hne : n <> "time") by (intros ->; apply Hn; left; reflexivity).
      destruct (IH row Hn') as [IH1 IH2]. simpl.
      destruct (String.eqb_spec n "id") as [-> | Hid].
      * rewrite kept_id. auto.
      * rewrite (kept_other n Hid). simpl.
        destruct (String.eqb_spec n "time") as [E | _]; [contradiction |].
        rewrite IH1, IH2. auto.
Qed.

(** One row through lines 153-160. *)
Lemma replace_expected names row x :
  List.NoDup names -> cell "time" (map VStr names) row = Some x ->
  replace_cell "time" (map VStr (List.filter kept names)) (select (map kept names) row)
    (decode_ms x) = expected_cells names row.
Proof.
  revert row. induction names as [| n names IH]; intros row Hnd Hcell.
  - destruct row; discriminate.
  - destruct row as [| y row]; [discriminate |].
    apply List.NoDup_cons_iff in Hnd as [Hn Hnd]. simpl in Hcell |- *.
    destruct (String.eqb_spec n "id") as [-> | Hid].
    + rewrite kept_id. apply IH; [assumption |].
      destruct (String.eqb_spec "id" "time"); [discriminate | exact Hcell].
    + rewrite (kept_other n Hid). simpl.
      destruct (String.eqb_spec n "time") as [-> | Htime].
      * injection Hcell as ->.
        destruct (cells_without_time names row (decode_ms x) Hn) as [-> ->]. reflexivity.
      * rewrite (IH row Hnd Hcell). reflexivity.
Qed.

Lemma map_exn_or_none {A} (f : pyval -> exn + pyval) (h : A -> pyval) (l : list A) :
  Forall (fun a => exists y, f (h a) = inr y) l ->
  map_exn f (map h l) = inr (map (fun a => or_none (f (h a))) l).
Proof.
  induction 1 as [| a l [y Hy] Hl IH]; [reflexivity |].
  simpl. rewrite Hy, IH. reflexivity.
Qed.

(** [df[name] = f(df[name])], cell by cell, for a column that exists. *)
Lemma transform_column name (f : pyval -> exn + pyval) labels rows :
  has_label name labels = true ->
  Forall (fun r => exists y, f (cell_value name labels r) = inr y) rows ->
  exists series,
    map_exn f (map (cell_value name labels) rows) = inr series /\
    set_column name series (mkDataFrame labels rows) =
      mkDataFrame labels
        (map (fun r => replace_cell name labels r (or_none (f (cell_value name labels r))))
             rows).
Proof.
  intros Hl Hrows. eexists. split.
  - apply map_exn_or_none, Hrows.
  - unfold set_column. simpl columns. simpl values. rewrite Hl.
    rewrite (zip_with_map_diag (fun r v => replace_cell name labels r v)). reflexivity.
Qed.

Lemma decode_number x :
  is_time x ->
  exists s, div_1000 x = inr (VFloat s) /\ to_datetime_s (VFloat s) = inr (VTimestamp s)
            /\ decode_ms x = VTimestamp s.
Proof.
  destruct x; simpl; intros H; try contradiction; eexists;
    (split; [reflexivity |]); rewrite H; split; reflexivity.
Qed.

Lemma cell_exists name names (r : list pyval) :
  In name names -> length r = length names ->
  exists x, cell name (map VStr names) r = Some x.
Proof.
  revert r. induction names as [| n names IH]; intros r Hin Hlen; [contradiction |].
  destruct r as [| y r]; [discriminate |]. simpl.
  destruct (String.eqb_spec n name) as [-> | Hn]; [eauto |].
  apply IH; [| simpl in Hlen; lia].
  destruct Hin as [-> | Hin]; [contradiction | exact Hin].
Qed.

Lemma cell_value_some name labels r x :
  cell name labels r = Some x -> cell_value name labels r = x.
Proof. unfold cell_value. intros ->. reflexivity. Qed.

(** One record through lines 153-160, as the script computes it. *)
Lemma record_normalised names r :
  List.NoDup names -> In "time" names -> length r = length names ->
  (forall x, cell "time" (map VStr names) r = Some x -> is_time x) ->
  let labels := map VStr (List.filter kept names) in
  let r1 := select (map kept names) r in
  let r2 := replace_cell "time" labels r1 (or_none (div_1000 (cell_value "time" labels r1))) in
  (exists y, div_1000 (cell_value "time" labels r1) = inr y) /\
  (exists y, to_datetime_s (cell_value "time" labels r2) = inr y) /\
  replace_cell "time" labels r2 (or_none (to_datetime_s (cell_value "time" labels r2)))
    = expected_cells names r.
Proof.
  intros Hnd Htime Hlen Hnum labels r1 r2.
  destruct (cell_exists "time" names r Htime Hlen) as [x Hx].
  destruct (decode_number x (Hnum x Hx)) as (s & Hdiv & Hdt & Hdec).
  assert (H1 : cell "time" labels r1 = Some x).
  { unfold labels, r1. rewrite cell_select by discriminate. exact Hx. }
  assert (V1 : cell_value "time" labels r1 = x) by (apply cell_value_some, H1).
  assert (V2 : cell_value "time" labels r2 = VFloat s).
  { apply cell_value_some. unfold r2. rewrite V1, Hdiv. simpl or_none.
    eapply cell_replace, H1. }
  rewrite V2, Hdt. subst r2. rewrite V1, Hdiv. simpl or_none.
  split; [eauto |]. split; [eauto |].
  rewrite replace_replace, <- Hdec. apply replace_expected; assumption.
Qed.

Lemma has_time_after_drop names :
  In "time" names -> has_label "time" (map VStr (List.filter kept names)) = true.
Proof.
  intros H. apply has_label_in, filter_In. split; [exact H | reflexivity].
Qed.

Lemma no_product_after_rename names :
  ~ In "product" names ->
  has_label "product" (map VStr (map renamed (List.filter kept names))) = false.
Proof.
  intros H. apply has_label_not_in. intros Hin.
  apply in_map_iff in Hin as (n & Hn & Hin). apply filter_In in Hin as [Hin _].
  unfold renamed in Hn. destruct (String.eqb_spec n "time"); [discriminate |].
  subst n. contradiction.
Qed.

(** The normaliser on well-formed region values with at least one record. *)
Lemma normalise_well_formed (args : gmap string pyval) product names rows :
  args !! "product" = Some (VStr product) ->
  well_formed names rows -> rows <> [] ->
  normalise args (map VStr names :: rows) =
    ret (mkDataFrame (expected_columns names) (map (expected_row (VStr product) names) rows)).
Proof.
  intros Hp (Hnd & Hid & Htime & Hprod & Hrows) Hne.
  assert (Hlen : Forall (fun r => length r = length names) rows).
  { eapply List.Forall_impl; [| exact Hrows]. intros r [H _]. exact H. }
  assert (Hrec : forall r, In r rows ->
            length r = length names /\
            forall x, cell "time" (map VStr names) r = Some x -> is_time x).
  { apply List.Forall_forall. exact Hrows. }
  unfold normalise. simpl skipn. simpl py_first. rewrite bind_lift_inr.
  change (drop 0 rows) with rows.
  rewrite (from_records_uniform (length names) rows Hne Hlen).
  unfold set_columns. simpl columns. simpl values.
  rewrite !length_map, length_seq, Nat.eqb_refl, bind_lift_inr.
  unfold drop_column. simpl columns. simpl values.
  rewrite (proj2 (has_label_in "id" names) Hid), bind_lift_inr, map_map.
  change (map (fun x => negb (is_label "id" (VStr x))) names) with (map kept names).
  rewrite select_header.
  set (labels := map VStr (List.filter kept names)).
  set (rows1 := map (select (map kept names)) rows).
  pose proof (has_time_after_drop names Htime) as Hl. fold labels in Hl.
  destruct (transform_column "time" div_1000 labels rows1 Hl) as (s1 & E1 & S1).
  { unfold rows1. apply List.Forall_map, List.Forall_forall. intros r Hr.
    destruct (Hrec r Hr) as [Hr1 Hr2].
    exact (proj1 (record_normalised names r Hnd Htime Hr1 Hr2)). }
  unfold df_getattr, column. simpl columns. simpl values.
  rewrite Hl, bind_lift_inr, E1, bind_lift_inr, S1. clear E1 S1 s1.
  set (rows2 := map _ rows1).
  destruct (transform_column "time" to_datetime_s labels rows2 Hl) as (s2 & E2 & S2).
  { unfold rows2, rows1. apply List.Forall_map, List.Forall_map, List.Forall_forall. intros r Hr.
    destruct (Hrec r Hr) as [Hr1 Hr2].
    exact (proj1 (proj2 (record_normalised names r Hnd Htime Hr1 Hr2))). }
  unfold df_getitem, column. simpl columns. simpl values.
  rewrite Hl, bind_lift_inr, E2, bind_lift_inr, S2. clear E2 S2 s2.
  unfold rename_column. simpl columns. simpl values.
  rewrite (getattr_some _ _ _ Hp), bind_ret. simpl series_of. rewrite bind_lift_inr.
  unfold set_column. simpl columns. simpl values.
  unfold labels. rewrite renamed_header, (no_product_after_rename names Hprod).
  rewrite (zip_with_repeat (fun r v => (r ++ [v])%list)).
  unfold expected_columns. f_equal. f_equal.
  unfold rows2, rows1. rewrite !map_map. apply map_ext_in. intros r Hr.
  destruct (Hrec r Hr) as [Hr1 Hr2]. unfold expected_row. f_equal.
  exact (proj2 (proj2 (record_normalised names r Hnd Htime Hr1 Hr2))).
Qed.

(** ** Traces *)

Lemma trace_bind {A B} (m : M A) (k : A -> M B) :
  trace (bind m k) =
    match outcome m with
    | inl _ => trace m
    | inr a => (trace m ++ trace (k a))%list
    end.
Proof.
  destruct m as [t [e | a]]; [reflexivity |].
  unfold bind. simpl. destruct (k a); reflexivity.
Qed.

Lemma outcome_bind {A B} (m : M A) (k : A -> M B) :
  outcome (bind m k) =
    match outcome m with
    | inl e => inl e
    | inr a => outcome (k a)
    end.
Proof.
  destruct m as [t [e | a]]; [reflexivity |].
  unfold bind. simpl. destruct (k a); reflexivity.
Qed.

Lemma pure_bind {A B} (m : M A) (k : A -> M B) :
  trace m = [] -> (forall a, trace (k a) = []) -> trace (bind m k) = [].
Proof.
  intros Hm Hk. rewrite trace_bind, Hm. destruct (outcome m); [reflexivity | apply Hk].
Qed.

Lemma pure_lift {A} (r : exn + A) : trace (lift r) = [].
Proof. reflexivity. Qed.

Lemma pure_getattr args name : trace (py_getattr args name) = [].
Proof. unfold py_getattr. destruct (args !! name); reflexivity. Qed.

Lemma pure_lookup_var {A} name (x : option A) : trace (lookup_var name x) = [].
Proof. destruct x; reflexivity. Qed.

(** A computation without effects is its outcome. *)
Lemma pure_eq {A} (m : M A) : trace m = [] -> m = ([], outcome m).
Proof. destruct m as [t r]. simpl. intros ->. reflexivity. Qed.

Ltac pure :=
  repeat first
    [ reflexivity
    | apply pure_lift
    | apply pure_getattr
    | apply pure_lookup_var
    | apply pure_bind; [| intros ?]
    | match goal with |- context [if ?b then _ else _] => destruct b end ].

Lemma make_geometry_pure args radius loc : trace (make_geometry args radius loc) = [].
Proof. unfold make_geometry. pure. Qed.

Lemma normalise_pure args region : trace (normalise args region) = [].
Proof. unfold normalise. pure. Qed.

Lemma read_locations_pure w (args : gmap string pyval) :
  args !! "loc" = None -> trace (read_locations w args) = [].
Proof.
  intros Hloc. unfold read_locations. rewrite (getattr_none _ _ Hloc). pure.
Qed.

Lemma bind_pair {A B} (t : list event) (a : A) (k : A -> M B) :
  bind (t, inr a) k = ((t ++ trace (k a))%list, outcome (k a)).
Proof. unfold bind. destruct (k a); reflexivity. Qed.

Lemma bind_pure {A B} (m : M A) (k : A -> M B) :
  trace m = [] ->
  bind m k = match outcome m with inl e => raise e | inr a => k a end.
Proof.
  intros H. rewrite (pure_eq m H). simpl outcome.
  destruct (outcome m) as [e | a]; [reflexivity | apply bind_ret].
Qed.

(** The request: nothing is sent unless the scale converts, and what is
    sent carries the geometry. *)
Lemma get_region_cases w args g :
  (exists e, get_region w args g = raise e) \/
  (exists q, q_geometry q = g /\ get_region w args g = ([EGetRegion q], ee_getRegion w q)).
Proof.
  unfold get_region, py_getattr.
  destruct (args !! "product") as [product |]; [| left; eexists; reflexivity]. mstep.
  destruct (args !! "band") as [band |]; [| left; eexists; reflexivity]. mstep.
  destruct (py_tuple band) as [e | bands]; [left; eexists; reflexivity |]. mstep.
  destruct (args !! "start") as [start |]; [| left; eexists; reflexivity]. mstep.
  destruct (args !! "end") as [end_ |]; [| left; eexists; reflexivity]. mstep.
  destruct (args !! "scale") as [scale |]; [| left; eexists; reflexivity]. mstep.
  destruct (py_int w scale) as [e | sc]; [left; eexists; reflexivity |]. mstep.
  right. eexists. split; [| rewrite bind_emit; reflexivity]. reflexivity.
Qed.

(** Every iteration goes one of the four ways. *)
Lemma process_cases w args radius loc :
  iteration w args radius loc (process w args radius loc).
Proof.
  unfold process.
  destruct (py_index loc 1) as [e | nm] eqn:E1; [apply iteration_stops_first |]. mstep.
  assert (Hloc : loc !! 1%nat = Some nm).
  { unfold py_index in E1. destruct (loc !! 1%nat); [congruence | discriminate]. }
  destruct nm as [| | name | | |]; try apply iteration_stops_first.
  simpl py_add. mstep. unfold py_print. rewrite bind_emit.
  rewrite (bind_pure _ _ (make_geometry_pure args radius loc)).
  destruct (outcome (make_geometry args radius loc)) as [e | g] eqn:Eg;
    [apply iteration_stops_after_feedback; exact Hloc |].
  assert (Hg : make_geometry args radius loc = ret g).
  { rewrite (pure_eq _ (make_geometry_pure args radius loc)), Eg. reflexivity. }
  destruct (get_region_cases w args g) as [[e ->] | (q & Hq & ->)];
    [apply iteration_stops_after_feedback; exact Hloc |].
  subst g.
  destruct (ee_getRegion w q) as [e | region] eqn:Er;
    [apply iteration_stops_after_request; assumption |].
  rewrite bind_pair.
  rewrite (bind_pure _ _ (normalise_pure args region)).
  destruct (outcome (normalise args region)) as [e | df] eqn:En;
    [apply iteration_stops_after_request; assumption |].
  assert (Hn : normalise args region = ret df).
  { rewrite (pure_eq _ (normalise_pure args region)), En. reflexivity. }
  unfold py_getattr.
  destruct (args !! "directory") as [d |] eqn:Ed;
    [| apply iteration_stops_after_request; assumption]. mstep.
  destruct (truthy d) eqn:Ht.
  - destruct d as [| | dir | | |]; try (apply iteration_stops_after_request; assumption).
    simpl py_add. mstep.
    apply (iteration_completes w args radius loc name q region df (VStr dir)); try assumption.
    unfold sink. rewrite Ht. reflexivity.
  - apply (iteration_completes w args radius loc name q region df d); try assumption.
    unfold sink. rewrite Ht. reflexivity.
Qed.

Lemma for_each_events {A} (xs : list A) (body : A -> M unit) ev :
  In ev (trace (for_each xs body)) -> exists x, In x xs /\ In ev (trace (body x)).
Proof.
  induction xs as [| x xs IH]; simpl for_each; [intros [] |].
  rewrite trace_bind. destruct (outcome (body x)) as [e | []].
  - intros H. exists x. split; [left; reflexivity | exact H].
  - intros H. apply in_app_or in H as [H | H].
    + exists x. split; [left; reflexivity | exact H].
    + destruct (IH H) as (y & Hy & Hev). exists y. split; [right; exact Hy | exact Hev].
Qed.

Lemma for_each_completes {A} (xs : list A) (body : A -> M unit) t :
  for_each xs body = (t, inr tt) ->
  t = concat (map (fun x => trace (body x)) xs) /\
  Forall (fun x => outcome (body x) = inr tt) xs.
Proof.
  revert t. induction xs as [| x xs IH]; simpl for_each; intros t H.
  - injection H as <-. split; [reflexivity | constructor].
  - destruct (body x) as [tx [e | []]] eqn:Ex; [discriminate H |].
    rewrite bind_pair in H. injection H as <- Ho.
    destruct (IH (trace (for_each xs body))) as [IH1 IH2].
    { destruct (for_each xs body) as [t' r']. simpl in Ho |- *. rewrite Ho. reflexivity. }
    simpl. rewrite <- IH1, Ex. split; [reflexivity |].
    constructor; [rewrite Ex; reflexivity | exact IH2].
Qed.

(** What a run emits besides the opening of the session comes from an
    iteration over a row of the table that was read. *)
Lemma run_events v w (args : gmap string pyval) ev :
  args !! "loc" = None -> In ev (trace (run v w args)) ->
  ev = EInitialize \/
  exists table radius loc,
    read_locations w args = ret (Some (LocFrame table)) /\
    fix_radius v w args = ret radius /\
    In loc (itertuples table) /\ In ev (trace (process w args radius loc)).
Proof.
  intros Hloc. unfold run.
  rewrite (bind_pure _ _ (read_locations_pure w args Hloc)).
  destruct (outcome (read_locations w args)) as [e | locations] eqn:El; [intros [] |].
  rewrite (bind_pure _ _ (fix_radius_pure v w args)).
  destruct (outcome (fix_radius v w args)) as [e | radius] eqn:Er; [intros [] |].
  unfold initialize. rewrite bind_assoc, bind_emit. simpl trace.
  intros [H | H]; [left; symmetry; exact H | right].
  destruct (ee_Initialize w) as [e |]; [destruct H |]. rewrite bind_ret in H.
  unfold iter_locations, lookup_var in H.
  destruct locations as [[tuple | table] |]; try destruct H.
  rewrite !bind_ret in H. apply for_each_events in H as (loc & Hin & Hev).
  exists table, radius, loc. repeat split; try assumption.
  - rewrite (pure_eq _ (read_locations_pure w args Hloc)), El. reflexivity.
  - rewrite (pure_eq _ (fix_radius_pure v w args)), Er. reflexivity.
Qed.

(** A run that completes read a table, converted the radius, opened the
    session and completed every iteration. *)
Lemma run_completes v w (args : gmap string pyval) t :
  args !! "loc" = None -> run v w args = (t, inr tt) ->
  exists table radius,
    read_locations w args = ret (Some (LocFrame table)) /\
    fix_radius v w args = ret radius /\
    t = EInitialize :: concat (map (fun loc => trace (process w args radius loc))
                                   (itertuples table)) /\
    Forall (fun loc => outcome (process w args radius loc) = inr tt) (itertuples table).
Proof.
  intros Hloc. unfold run.
  rewrite (bind_pure _ _ (read_locations_pure w args Hloc)).
  destruct (outcome (read_locations w args)) as [e | locations] eqn:El; [discriminate |].
  rewrite (bind_pure _ _ (fix_radius_pure v w args)).
  destruct (outcome (fix_radius v w args)) as [e | radius] eqn:Er; [discriminate |].
  unfold initialize. rewrite bind_assoc, bind_emit.
  destruct (ee_Initialize w) as [e |]; [discriminate |]. rewrite bind_ret.
  unfold iter_locations, lookup_var.
  destruct locations as [[tuple | table] |]; try discriminate.
  rewrite !bind_ret. intros H. injection H as <- Ho.
  destruct (for_each_completes (itertuples table) (process w args radius)
              (trace (for_each (itertuples table) (process w args radius)))) as [H1 H2].
  { destruct (for_each _ _) as [t' r']. simpl in Ho |- *. rewrite Ho. reflexivity. }
  exists table, radius. repeat split; try assumption.
  - rewrite (pure_eq _ (read_locations_pure w args Hloc)), El. reflexivity.
  - rewrite (pure_eq _ (fix_radius_pure v w args)), Er. reflexivity.
  - f_equal. exact H1.
Qed.

(** ** The geometries requested *)

(** A request sent by an iteration carries the geometry of its location. *)
Lemma process_requests w args radius loc q :
  In (EGetRegion q) (trace (process w args radius loc)) ->
  make_geometry args radius loc = ret (q_geometry q).
Proof.
  intros H. pose proof (process_cases w args radius loc) as Hc.
  destruct Hc as [e | name e Hname | name q' e Hname Hg
                 | name q' region df d ev Hname Hg Hr Hn Hd Hs]; simpl in H.
  - destruct H.
  - destruct H as [H | []]. discriminate H.
  - destruct H as [H | [H | []]]; [discriminate H |]. injection H as ->. exact Hg.
  - destruct H as [H | [H | [H | []]]]; [discriminate H | injection H as ->; exact Hg |].
    subst ev. unfold sink in Hs.
    destruct (truthy d); [destruct d |]; discriminate Hs.
Qed.

(** Every request of a run carries the geometry built for a row of the
    table with the radius of line 112. *)
Lemma run_requests v w cmd args q :
  parse_args cmd = inr args ->
  In (EGetRegion q) (trace (main v w cmd)) ->
  exists table radius loc,
    read_locations w args = ret (Some (LocFrame table)) /\
    fix_radius v w args = ret radius /\
    In loc (itertuples table) /\
    make_geometry args radius loc = ret (q_geometry q).
Proof.
  intros Hparse Hin. rewrite (main_run _ _ _ _ Hparse) in Hin.
  destruct (parse_args_attributes _ _ Hparse) as (Hloc & _).
  apply (run_events v w args _ Hloc) in Hin
    as [Hin | (table & radius & loc & Hread & Hfix & Hl & Hin)]; [discriminate Hin |].
  exists table, radius, loc.
  split; [exact Hread |]. split; [exact Hfix |]. split; [exact Hl |].
  exact (process_requests w args radius loc q Hin).
Qed.

(** Whatever the interpreter, the collaborators and the command line, no
    request carries a point. *)
Lemma no_point_requested v w cmd args q :
  parse_args cmd = inr args ->
  In (EGetRegion q) (trace (main v w cmd)) ->
  exists coords, q_geometry q = Rectangle coords.
Proof.
  intros Hparse Hin.
  destruct (run_requests v w cmd args q Hparse Hin)
    as (table & radius & loc & _ & Hfix & _ & Hg).
  exact (never_a_point v w cmd args radius loc _ Hparse Hfix Hg).
Qed.

(** C2, evaluated on [-p X -b Y -f https://example.org/sites.csv] (radius
    left at its default ["0"]): under Python 2 both locations are queried
    with a rectangle whose sides have length zero, not with a point; under
    Python 3 the run stops at line 111.  In no run at all does a request
    carry a point. *)
Theorem zero_radius_builds_rectangle :
  queried (trace (main Py2 w0 cmd_url)) =
    [Rectangle [VFloat (-72.25); VFloat 42.5; VFloat (-72.25); VFloat 42.5];
     Rectangle [VFloat (-105); VFloat 40; VFloat (-105); VFloat 40]] /\
  main Py3 w0 cmd_url = ([], inl TypeError) /\
  (forall v w cmd args q,
     parse_args cmd = inr args -> In (EGetRegion q) (trace (main v w cmd)) ->
     exists coords, q_geometry q = Rectangle coords).
Proof.
  split; [reflexivity |]. split; [reflexivity |]. exact no_point_requested.
Qed.

(** ** The columns of the table *)

Lemma expected_columns_no_id names : ~ In (VStr "id") (expected_columns names).
Proof.
  unfold expected_columns. intros H. apply in_app_or in H as [H | [H | []]]; [| discriminate].
  apply in_map_iff in H as (n' & Hn' & H). injection Hn' as ->.
  apply in_map_iff in H as (n & Hn & H). apply filter_In in H as [_ Hk].
  unfold renamed in Hn. destruct (String.eqb_spec n "time"); [discriminate |].
  subst n. discriminate.
Qed.

Lemma filter_kept_bands bands : ~ In "id" bands -> List.filter kept bands = bands.
Proof.
  induction bands as [| b bands IH]; intros H; [reflexivity |]. simpl.
  rewrite kept_other by (intros ->; apply H; left; reflexivity).
  rewrite IH by (intros Hin; apply H; right; exact Hin). reflexivity.
Qed.

Lemma renamed_bands bands : ~ In "time" bands -> map renamed bands = bands.
Proof.
  induction bands as [| b bands IH]; intros H; [reflexivity |]. simpl.
  rewrite IH by (intros Hin; apply H; right; exact Hin). unfold renamed.
  destruct (String.eqb_spec b "time") as [-> | _]; [| reflexivity].
  exfalso. apply H. left. reflexivity.
Qed.

Lemma expected_cells_bands bands vals :
  ~ In "id" bands -> ~ In "time" bands -> length vals = length bands ->
  expected_cells bands vals = vals.
Proof.
  revert vals. induction bands as [| b bands IH]; intros vals Hid Ht Hlen.
  - destruct vals; [reflexivity | discriminate].
  - destruct vals as [| x vals]; [discriminate |]. simpl.
    destruct (String.eqb_spec b "id") as [-> | _]; [exfalso; apply Hid; left; reflexivity |].
    destruct (String.eqb_spec b "time") as [-> | _]; [exfalso; apply Ht; left; reflexivity |].
    rewrite IH; [reflexivity | | | simpl in Hlen; lia]; intros Hin; [apply Hid | apply Ht];
      right; exact Hin.
Qed.

(** The header [id, time, b1, ..., bn]: the columns are [date, b1, ..., bn,
    product] and a record [i, t, x1, ..., xn] becomes the decoded [t], then
    [x1, ..., xn], then the product. *)
Lemma expected_id_time_bands product bands :
  List.NoDup ("id" :: "time" :: bands) ->
  expected_columns ("id" :: "time" :: bands)
    = VStr "date" :: (map VStr bands ++ [VStr "product"])%list /\
  forall i t vals, length vals = length bands ->
    expected_row product ("id" :: "time" :: bands) (i :: t :: vals)
      = decode_ms t :: (vals ++ [product])%list.
Proof.
  intros Hnd. apply List.NoDup_cons_iff in Hnd as [Hid Hnd].
  apply List.NoDup_cons_iff in Hnd as [Ht _].
  assert (Hid' : ~ In "id" bands) by (intros H; apply Hid; right; exact H).
  split.
  - unfold expected_columns. simpl List.filter.
    rewrite (filter_kept_bands bands Hid'). simpl map.
    rewrite (renamed_bands bands Ht). reflexivity.
  - intros i t vals Hlen. unfold expected_row. simpl expected_cells.
    rewrite (expected_cells_bands bands vals Hid' Ht Hlen). reflexivity.
Qed.

(** C4 as stated fails: region values that consist of the header only give
    a frame without columns, and naming its columns raises [ValueError]. *)
Lemma normalise_header_only :
  normalise (namespace "X" ["Y"] "2013-01-01" "2014-12-31" "0" "30"
               (VInt 0) (VStr "https://example.org/sites.csv") (VInt 0))
            [[VStr "id"; VStr "time"; VStr "Y"]]
  = ([], inl ValueError).
Proof. reflexivity. Qed.

(** A time out of the range of timestamps stops the normaliser: the
    conversion to timestamps raises. *)
Lemma normalise_time_out_of_range :
  normalise (namespace "X" ["Y"] "2013-01-01" "2014-12-31" "0" "30"
               (VInt 0) (VStr "https://example.org/sites.csv") (VInt 0))
            [[VStr "id"; VStr "time"; VStr "Y"]; [VInt 0; VFloat 1e30; VInt 5]]
  = ([], inl ValueError) /\
  normalise (namespace "X" ["Y"] "2013-01-01" "2014-12-31" "0" "30"
               (VInt 0) (VStr "https://example.org/sites.csv") (VInt 0))
            [[VStr "id"; VStr "time"; VStr "Y"]; [VInt 0; VFloat infinity; VInt 5]]
  = ([], inl ValueError) /\
  to_datetime_s (VInt 9223372037) = inl ValueError /\
  to_datetime_s (VInt 9223372036) = inr (VTimestamp 9223372036).
Proof. repeat split; reflexivity. Qed.

(** C4, amended: for region values with at least one record, whose header
    has distinct names with [id] and [time] and without [product], and whose
    records are as long as the header with, under [time], a number of
    milliseconds whose seconds are in the range of timestamps (about the
    years 1677 to 2262), the normaliser returns the table in which the [id]
    column is absent, the [time] column is renamed [date] and each of its
    cells is the timestamp that many thousandths of a second after the
    epoch, the other columns are unchanged, and a last column [product]
    holds the configured product in every row; 1000 ms decodes to one second
    after the epoch. *)
Theorem normalise_table (args : gmap string pyval) product names rows :
  args !! "product" = Some (VStr product) ->
  well_formed names rows -> rows <> [] ->
  normalise args (map VStr names :: rows) =
    ret (mkDataFrame (expected_columns names)
                     (map (expected_row (VStr product) names) rows)) /\
  ~ In (VStr "id") (expected_columns names) /\
  (forall bands, names = "id" :: "time" :: bands ->
     expected_columns names = VStr "date" :: (map VStr bands ++ [VStr "product"])%list /\
     forall i t vals, length vals = length bands ->
       expected_row (VStr product) names (i :: t :: vals)
         = decode_ms t :: (vals ++ [VStr product])%list) /\
  decode_ms (VInt 1000) = VTimestamp 1.
Proof.
  intros Hp Hwf Hne. split; [exact (normalise_well_formed args product names rows Hp Hwf Hne) |].
  split; [apply expected_columns_no_id |]. split; [| reflexivity].
  intros bands ->. apply expected_id_time_bands. exact (proj1 Hwf).
Qed.

Lemma stub_region_well_formed :
  well_formed ["id"; "time"; "Y"] [[VInt 0; VInt 0; VInt 5]; [VInt 1; VInt 1000; VInt 6]].
Proof.
  unfold well_formed. repeat split.
  - repeat constructor; simpl; intuition discriminate.
  - simpl. auto.
  - simpl. auto.
  - simpl. intuition discriminate.
  - repeat constructor; simpl; intros x [= <-]; reflexivity.
Qed.

Lemma normalise_table_witness :
  normalise (namespace "X" ["Y"] "2013-01-01" "2014-12-31" "0" "30"
               (VInt 0) (VStr "https://example.org/sites.csv") (VInt 0))
            stub_region
  = ret (mkDataFrame [VStr "date"; VStr "Y"; VStr "product"]
           [[VTimestamp 0; VInt 5; VStr "X"]; [VTimestamp 1; VInt 6; VStr "X"]]).
Proof.
  refine (proj1 (normalise_table _ "X" ["id"; "time"; "Y"]
                   [[VInt 0; VInt 0; VInt 5]; [VInt 1; VInt 1000; VInt 6]] _
                   stub_region_well_formed _)).
  - reflexivity.
  - discriminate.
Defined.

Ltac mstep_in H := repeat (progress (cbn iota in H; rewrite ?bind_lift_inr, ?bind_ret in H)).



(** A raw header with a column named [product]: the column stays where it
    is, and no column is added. *)
Lemma table_columns_product_present :
  table_columns ["id"; "time"; "product"; "Y"] = [VStr "date"; VStr "product"; VStr "Y"] /\
  normalise (namespace "X" ["Y"] "2013-01-01" "2014-12-31" "0" "30"
               (VInt 0) (VStr "https://example.org/sites.csv") (VInt 0))
            [[VStr "id"; VStr "time"; VStr "product"; VStr "Y"];
             [VInt 0; VInt 1000; VStr "raw"; VInt 5]]
  = ret (mkDataFrame [VStr "date"; VStr "product"; VStr "Y"]
           [[VTimestamp 1; VStr "X"; VInt 5]]).
Proof. split; reflexivity. Qed.



(** ** The files written *)



Lemma parse_cmd_directory :
  parse_args cmd_directory =
    inr (namespace "X" ["Y"] "2013-01-01" "2014-12-31" "0" "30"
           (VInt 0) (VStr "https://example.org/sites.csv") (VStr "out")).
Proof. reflexivity. Qed.


(** ** One output per location *)

Lemma process_completes w args radius loc :
  outcome (process w args radius loc) = inr tt ->
  exists name q region df d ev,
    loc !! 1%nat = Some (VStr name) /\
    make_geometry args radius loc = ret (q_geometry q) /\
    ee_getRegion w q = inr region /\ normalise args region = ret df /\
    args !! "directory" = Some d /\ sink d name df = Some ev /\
    trace (process w args radius loc)
      = [EPrint (VStr ("processing: " ++ name)); EGetRegion q; ev].
Proof.
  intros H. pose proof (process_cases w args radius loc) as Hc.
  destruct Hc as [e | name e Hname | name q e Hname Hg
                 | name q region df d ev Hname Hg Hr Hn Hd Hs]; try discriminate H.
  exists name, q, region, df, d, ev. repeat split; assumption.
Qed.

Lemma written_app t1 t2 : written (t1 ++ t2) = (written t1 ++ written t2)%list.
Proof.
  induction t1 as [| ev t1 IH]; [reflexivity |].
  destruct ev; simpl; rewrite IH; reflexivity.
Qed.

Lemma printed_app t1 t2 : printed (t1 ++ t2) = (printed t1 ++ printed t2)%list.
Proof.
  induction t1 as [| ev t1 IH]; [reflexivity |].
  destruct ev; simpl; rewrite IH; reflexivity.
Qed.

(** With a directory every completed iteration writes one file and prints
    no table. *)
Lemma iterations_write w (args : gmap string pyval) radius dir locs :
  args !! "directory" = Some (VStr dir) -> dir <> "" ->
  Forall (fun loc => outcome (process w args radius loc) = inr tt) locs ->
  let t := concat (map (fun loc => trace (process w args radius loc)) locs) in
  List.Forall2 (csv_path dir) locs (written t) /\ printed t = [].
Proof.
  intros Hd Hne Hall. induction Hall as [| loc locs Hloc Hlocs [IH1 IH2]]; simpl.
  - split; [constructor | reflexivity].
  - destruct (process_completes w args radius loc Hloc)
      as (name & q & region & df & d & ev & Hname & _ & _ & _ & Hd' & Hs & ->).
    rewrite Hd in Hd'. injection Hd' as <-.
    unfold sink in Hs. rewrite (truthy_str dir Hne) in Hs. injection Hs as <-.
    rewrite written_app, printed_app. simpl. split; [| exact IH2].
    constructor; [| exact IH1]. exists name. split; [exact Hname | reflexivity].
Qed.

(** Without a directory every completed iteration prints its table and
    writes no file. *)
Lemma iterations_print w (args : gmap string pyval) radius d locs :
  args !! "directory" = Some d -> truthy d = false ->
  Forall (fun loc => outcome (process w args radius loc) = inr tt) locs ->
  let t := concat (map (fun loc => trace (process w args radius loc)) locs) in
  written t = [] /\ List.Forall2 (table_of w args radius) locs (printed t).
Proof.
  intros Hd Ht Hall. induction Hall as [| loc locs Hloc Hlocs [IH1 IH2]]; simpl.
  - split; [reflexivity | constructor].
  - destruct (process_completes w args radius loc Hloc)
      as (name & q & region & df & d' & ev & Hname & Hg & Hr & Hn & Hd' & Hs & ->).
    rewrite Hd in Hd'. injection Hd' as <-.
    unfold sink in Hs. rewrite Ht in Hs. injection Hs as <-.
    rewrite written_app, printed_app. simpl. split; [exact IH1 |].
    constructor; [| exact IH2]. exists q, region. auto.
Qed.

Lemma join_trailing_slash dir name :
  ends_with_slash dir = true -> starts_with_slash name = false ->
  ((dir ++ name) ++ "_gee_subset.csv")%string = os_path_join dir (name ++ "_gee_subset.csv").
Proof.
  intros Hd Hn. unfold os_path_join.
  assert (Hs : starts_with_slash (name ++ "_gee_subset.csv") = false).
  { destruct name; [reflexivity | exact Hn]. }
  rewrite Hs, Hd, orb_true_r. clear.
  induction dir as [| c dir IH]; [reflexivity |].
  change (String c ((dir ++ name) ++ "_gee_subset.csv")
          = String c (dir ++ name ++ "_gee_subset.csv")).
  rewrite IH. reflexivity.
Qed.

(** C7 as stated fails: with [-d out] the file of the location [harvard] is
    written at [outharvard_gee_subset.csv], next to the directory [out],
    not at [out/harvard_gee_subset.csv]. *)
Lemma file_outside_directory :
  outcome (main Py2 w0 cmd_directory) = inr tt /\
  written (trace (main Py2 w0 cmd_directory))
    = ["outharvard_gee_subset.csv"; "outboulder_gee_subset.csv"] /\
  written (trace (process w0
                    (namespace "X" ["Y"] "2013-01-01" "2014-12-31" "0" "30"
                       (VInt 0) (VStr "https://example.org/sites.csv") (VStr "out"))
                    (Some 0%float)
                    [VInt 0; VStr "harvard"; VFloat 42.5; VFloat (-72.25)]))
    = ["outharvard_gee_subset.csv"] /\
  os_path_join "out" "harvard_gee_subset.csv" = "out/harvard_gee_subset.csv".
Proof. repeat split; reflexivity. Qed.

(** C7, amended: in a run that completes, when the directory argument is a
    non-empty string exactly one file per location is written and no table
    is printed, and the path of the file is the concatenation of the
    argument, the location's name and [_gee_subset.csv]; that is the file
    [<name>_gee_subset.csv] of the directory when the argument ends with a
    slash.  When the argument is left at its default (or empty) each
    location's table is printed and no file is written. *)
Theorem one_output_per_location v w cmd args d t :
  parse_args cmd = inr args ->
  args !! "directory" = Some d ->
  main v w cmd = (t, inr tt) ->
  exists table radius,
    read_locations w args = ret (Some (LocFrame table)) /\
    fix_radius v w args = ret radius /\
    (forall dir, d = VStr dir -> dir <> "" ->
       List.Forall2 (csv_path dir) (itertuples table) (written t) /\ printed t = []) /\
    (truthy d = false ->
       written t = [] /\
       List.Forall2 (table_of w args radius) (itertuples table) (printed t)) /\
    (forall dir name, ends_with_slash dir = true -> starts_with_slash name = false ->
       ((dir ++ name) ++ "_gee_subset.csv")%string
         = os_path_join dir (name ++ "_gee_subset.csv")).
Proof.
  intros Hparse Hd Hmain. rewrite (main_run _ _ _ _ Hparse) in Hmain.
  destruct (parse_args_attributes _ _ Hparse) as (Hloc & _).
  destruct (run_completes v w args t Hloc Hmain) as (table & radius & Hread & Hfix & -> & Hall).
  exists table, radius.
  split; [exact Hread |]. split; [exact Hfix |]. split; [| split].
  - intros dir -> Hne. exact (iterations_write w args radius dir _ Hd Hne Hall).
  - intros Ht. exact (iterations_print w args radius d _ Hd Ht Hall).
  - exact join_trailing_slash.
Qed.

Lemma one_output_per_location_witness :
  exists table radius,
    read_locations w0
      (namespace "X" ["Y"] "2013-01-01" "2014-12-31" "0" "30"
         (VInt 0) (VStr "https://example.org/sites.csv") (VStr "out"))
      = ret (Some (LocFrame table)) /\
    fix_radius Py2 w0
      (namespace "X" ["Y"] "2013-01-01" "2014-12-31" "0" "30"
         (VInt 0) (VStr "https://example.org/sites.csv") (VStr "out"))
      = ret radius /\
    (forall dir, VStr "out" = VStr dir -> dir <> "" ->
       List.Forall2 (csv_path dir) (itertuples table)
         (written (trace (main Py2 w0 cmd_directory))) /\
       printed (trace (main Py2 w0 cmd_directory)) = []) /\
    (truthy (VStr "out") = false ->
       written (trace (main Py2 w0 cmd_directory)) = [] /\
       List.Forall2
         (table_of w0
            (namespace "X" ["Y"] "2013-01-01" "2014-12-31" "0" "30"
               (VInt 0) (VStr "https://example.org/sites.csv") (VStr "out")) radius)
         (itertuples table) (printed (trace (main Py2 w0 cmd_directory)))) /\
    (forall dir name, ends_with_slash dir = true -> starts_with_slash name = false ->
       ((dir ++ name) ++ "_gee_subset.csv")%string
         = os_path_join dir (name ++ "_gee_subset.csv")).
Proof.
  refine (one_output_per_location Py2 w0 cmd_directory _ (VStr "out")
            (trace (main Py2 w0 cmd_directory)) parse_cmd_directory _ _);
    reflexivity.
Defined.

(** ** A file and a literal pair *)

Lemma getattr_other (args : gmap string pyval) l k :
  k <> "location" -> py_getattr (<["location" := l]> args) k = py_getattr args k.
Proof.
  intros H. unfold py_getattr. rewrite lookup_insert_ne by congruence. reflexivity.
Qed.

Lemma fix_radius_other v w (args : gmap string pyval) l :
  fix_radius v w (<["location" := l]> args) = fix_radius v w args.
Proof. unfold fix_radius. rewrite !getattr_other by discriminate. reflexivity. Qed.

Lemma make_geometry_other (args : gmap string pyval) l radius loc :
  make_geometry (<["location" := l]> args) radius loc = make_geometry args radius loc.
Proof. unfold make_geometry. rewrite !getattr_other by discriminate. reflexivity. Qed.

Lemma get_region_other w (args : gmap string pyval) l g :
  get_region w (<["location" := l]> args) g = get_region w args g.
Proof. unfold get_region. rewrite !getattr_other by discriminate. reflexivity. Qed.

Lemma normalise_other (args : gmap string pyval) l region :
  normalise (<["location" := l]> args) region = normalise args region.
Proof. unfold normalise. rewrite !getattr_other by discriminate. reflexivity. Qed.

Lemma process_other w (args : gmap string pyval) l radius loc :
  process w (<["location" := l]> args) radius loc = process w args radius loc.
Proof.
  unfold process. rewrite make_geometry_other, !getattr_other by discriminate.
  apply bind_ext; intros name. apply bind_ext; intros message. apply bind_ext; intros _.
  apply bind_ext; intros g. rewrite get_region_other.
  apply bind_ext; intros region. rewrite normalise_other. reflexivity.
Qed.

Lemma for_each_ext {A} (xs : list A) (body body' : A -> M unit) :
  (forall x, body x = body' x) -> for_each xs body = for_each xs body'.
Proof.
  intros H. induction xs as [| x xs IH]; [reflexivity |].
  simpl. rewrite H, IH. reflexivity.
Qed.

(** The feedback line is the only thing an iteration prints with [print]. *)
Lemma process_no_warning w args radius loc :
  ~ In (EPrint warning) (trace (process w args radius loc)).
Proof.
  intros H. pose proof (process_cases w args radius loc) as Hc.
  destruct Hc as [e | name e Hname | name q e Hname Hg
                 | name q region df d ev Hname Hg Hr Hn Hd Hs]; simpl in H.
  - exact H.
  - destruct H as [H | []]. discriminate H.
  - destruct H as [H | [H | []]]; discriminate H.
  - destruct H as [H | [H | [H | []]]]; try discriminate H. subst ev.
    unfold sink in Hs. destruct (truthy d); [destruct d |]; discriminate Hs.
Qed.

Lemma parse_cmd_both :
  parse_args cmd_both =
    inr (namespace "X" ["Y"] "2013-01-01" "2014-12-31" "0" "30"
           (VList ["40.0"; "-105.0"]) (VStr "https://example.org/sites.csv") (VInt 0)).
Proof. reflexivity. Qed.

(** C5 as stated fails: with both [-f] and [-loc] nothing but the feedback
    lines is printed.  When the file value is not an existing file the run
    is the run without [-loc]; when it is one the run stops with the
    attribute error, and no diagnostic either. *)
Lemma both_inputs_no_diagnostic :
  parse_args cmd_both =
    inr (namespace "X" ["Y"] "2013-01-01" "2014-12-31" "0" "30"
           (VList ["40.0"; "-105.0"]) (VStr "https://example.org/sites.csv") (VInt 0)) /\
  messages (trace (main Py2 w0 cmd_both))
    = [VStr "processing: harvard"; VStr "processing: boulder"] /\
  main Py2 w0 cmd_both = main Py2 w0 cmd_url /\
  outcome (main Py2 w0 cmd_both) = inr tt /\
  main Py2 w0 cmd_both_file = ([], inl (AttributeError "loc")).
Proof. repeat split; reflexivity. Qed.

(** C5, amended: when both a location file and a literal pair are supplied
    and the file value is not an existing file, the file input takes
    precedence silently: the location list is what the table reader
    returns for that value, the run is the run of the same options without
    the literal pair, and the diagnostic of line 102 is not printed. *)
Theorem file_overrides_location v w cmd args f a b :
  parse_args cmd = inr args ->
  args !! "file" = Some (VStr f) -> f <> "" ->
  args !! "location" = Some (VList [a; b]) ->
  os_path_isfile w f = false ->
  read_locations w args =
    ([], match pd_read_csv w f with
         | inr table => inr (Some (LocFrame table))
         | inl e => inl e
         end) /\
  main v w cmd = run v w (<["location" := VInt 0]> args) /\
  ~ In (EPrint warning) (trace (main v w cmd)).
Proof.
  intros Hparse Hf Hne Hl Hfile.
  destruct (parse_args_attributes _ _ Hparse) as (Hloc & _).
  rewrite (main_run _ _ _ _ Hparse).
  assert (Hread : read_locations w args =
            ([], match pd_read_csv w f with
                 | inr table => inr (Some (LocFrame table))
                 | inl e => inl e
                 end)).
  { rewrite (read_locations_missing _ _ _ Hf Hne Hfile).
    destruct (pd_read_csv w f); reflexivity. }
  split; [exact Hread |]. split.
  - unfold run. rewrite fix_radius_other.
    rewrite (read_locations_missing w (<["location" := VInt 0]> args) f); trivial.
    + rewrite (read_locations_missing _ _ _ Hf Hne Hfile).
      apply bind_ext; intros locations. apply bind_ext; intros radius.
      apply bind_ext; intros _. apply bind_ext; intros rows.
      apply for_each_ext. intros loc. symmetry. apply process_other.
    + rewrite lookup_insert_ne by discriminate. exact Hf.
  - intros Hin.
    apply (run_events v w args _ Hloc) in Hin
      as [Hin | (table & radius & loc & _ & _ & _ & Hin)]; [discriminate Hin |].
    exact (process_no_warning w args radius loc Hin).
Qed.

Lemma file_overrides_location_witness :
  read_locations w0
    (namespace "X" ["Y"] "2013-01-01" "2014-12-31" "0" "30"
       (VList ["40.0"; "-105.0"]) (VStr "https://example.org/sites.csv") (VInt 0))
    = ([], inr (Some (LocFrame sites))).
Proof.
  refine (proj1 (file_overrides_location Py2 w0 cmd_both _ "https://example.org/sites.csv"
                   "40.0" "-105.0" parse_cmd_both _ _ _ _)).
  - reflexivity.
  - discriminate.
  - reflexivity.
  - reflexivity.
Defined.

(** ** Sample runs *)

(** [-r 2] under Python 2: both locations are requested with the rectangle
    of half-width [2 * 0.008983] degrees around them. *)
Example run_with_radius :
  queried (trace (main Py2 w0 cmd_radius)) =
    [Rectangle [VFloat (-72.25 - 2 * 0.008983); VFloat (42.5 - 2 * 0.008983);
                VFloat (-72.25 + 2 * 0.008983); VFloat (42.5 + 2 * 0.008983)];
     Rectangle [VFloat (float_of_Z (-105) - 2 * 0.008983);
                VFloat (float_of_Z 40 - 2 * 0.008983);
                VFloat (float_of_Z (-105) + 2 * 0.008983);
                VFloat (float_of_Z 40 + 2 * 0.008983)]].
Proof. reflexivity. Qed.

(** Without a directory the tables are printed. *)
Example run_to_console :
  printed (trace (main Py2 w0 cmd_url)) =
    [mkDataFrame [VStr "date"; VStr "Y"; VStr "product"]
       [[VTimestamp 0; VInt 5; VStr "X"]; [VTimestamp 1; VInt 6; VStr "X"]];
     mkDataFrame [VStr "date"; VStr "Y"; VStr "product"]
       [[VTimestamp 0; VInt 5; VStr "X"]; [VTimestamp 1; VInt 6; VStr "X"]]] /\
  written (trace (main Py2 w0 cmd_url)) = [].
Proof. split; reflexivity. Qed.

(** A missing required option is a usage error. *)
Example usage_error : main Py2 w0 [("-p", ["X"])] = ([], inl (SystemExit 2)).
Proof. reflexivity. Qed.

(** ** A file value that is not a file *)

Lemma messages_app t1 t2 : messages (t1 ++ t2) = (messages t1 ++ messages t2)%list.
Proof.
  induction t1 as [| ev t1 IH]; [reflexivity |].
  destruct ev; simpl; rewrite IH; reflexivity.
Qed.

Lemma queried_app t1 t2 : queried (t1 ++ t2) = (queried t1 ++ queried t2)%list.
Proof.
  induction t1 as [| ev t1 IH]; [reflexivity |].
  destruct ev; simpl; rewrite IH; reflexivity.
Qed.

Lemma sink_quiet d name df ev :
  sink d name df = Some ev -> messages [ev] = [] /\ queried [ev] = [].
Proof.
  unfold sink. destruct (truthy d); [destruct d |]; intros H; try discriminate H;
    injection H as <-; split; reflexivity.
Qed.

Lemma iterations_in_order w (args : gmap string pyval) radius locs :
  Forall (fun loc => outcome (process w args radius loc) = inr tt) locs ->
  let t := concat (map (fun loc => trace (process w args radius loc)) locs) in
  List.Forall2 (fun loc m => exists name,
                  loc !! 1%nat = Some (VStr name) /\ m = VStr ("processing: " ++ name))
               locs (messages t) /\
  List.Forall2 (fun loc g => make_geometry args radius loc = ret g) locs (queried t).
Proof.
  intros Hall. induction Hall as [| loc locs Hloc Hlocs [IH1 IH2]]; simpl.
  - split; constructor.
  - destruct (process_completes w args radius loc Hloc)
      as (name & q & region & df & d & ev & Hname & Hg & _ & _ & _ & Hs & ->).
    destruct (sink_quiet d name df ev Hs) as [Hm Hq].
    rewrite messages_app, queried_app.
    change (messages [EPrint (VStr ("processing: " ++ name)); EGetRegion q; ev])
      with (VStr ("processing: " ++ name) :: messages [ev]).
    change (queried [EPrint (VStr ("processing: " ++ name)); EGetRegion q; ev])
      with (q_geometry q :: queried [ev]).
    rewrite Hm, Hq. simpl. split.
    + constructor; [| exact IH1]. exists name. split; [exact Hname | reflexivity].
    + constructor; [exact Hg | exact IH2].
Qed.

(** C6 as stated fails: with [-f missing.csv], where [missing.csv] is not a
    file and the table reader finds nothing to read, the value is not taken
    as the location table: the run ends with the reader's file-not-found
    error, under either interpreter, before anything is printed, requested
    or written. *)
Lemma missing_file_reader_fails :
  parse_args cmd_missing =
    inr (namespace "X" ["Y"] "2013-01-01" "2014-12-31" "0" "30"
           (VInt 0) (VStr "missing.csv") (VInt 0)) /\
  os_path_isfile w0 "missing.csv" = false /\
  main Py2 w0 cmd_missing = ([], inl (External "FileNotFoundError")) /\
  main Py3 w0 cmd_missing = ([], inl (External "FileNotFoundError")).
Proof. repeat split; reflexivity. Qed.

(** C6, amended: when [--file] is given and its value is not an existing
    file, the resolver raises no error of its own and hands the value to the
    table reader as the path or URL to read.  If the reader raises, the run
    ends with the reader's error, before the session is opened and with
    nothing printed, requested or written.  If the reader returns a table,
    that table is the location table: a run that completes has printed one
    feedback line and sent one request per row of it, in the order of the
    rows. *)
Theorem missing_file_goes_to_reader v w cmd args f :
  parse_args cmd = inr args ->
  args !! "file" = Some (VStr f) -> f <> "" -> os_path_isfile w f = false ->
  (forall e, pd_read_csv w f = inl e ->
     read_locations w args = raise e /\ main v w cmd = ([], inl e)) /\
  (forall table, pd_read_csv w f = inr table ->
     read_locations w args = ret (Some (LocFrame table)) /\
     forall t, main v w cmd = (t, inr tt) ->
       exists radius,
         fix_radius v w args = ret radius /\
         List.Forall2 (fun loc m => exists name,
                         loc !! 1%nat = Some (VStr name) /\
                         m = VStr ("processing: " ++ name))
                      (itertuples table) (messages t) /\
         List.Forall2 (fun loc g => make_geometry args radius loc = ret g)
                      (itertuples table) (queried t)).
Proof.
  intros Hparse Hf Hne Hfile.
  destruct (parse_args_attributes _ _ Hparse) as (Hloc & _).
  pose proof (read_locations_missing w args f Hf Hne Hfile) as Hread.
  rewrite (main_run _ _ _ _ Hparse). split.
  - intros e He. rewrite He in Hread. split; [exact Hread |].
    unfold run. rewrite Hread. reflexivity.
  - intros table Ht. rewrite Ht in Hread. split; [exact Hread |].
    intros t Hrun.
    destruct (run_completes v w args t Hloc Hrun) as (table' & radius & Hread' & Hfix & -> & Hall).
    rewrite Hread in Hread'. unfold ret in Hread'. injection Hread' as <-.
    exists radius. split; [exact Hfix |].
    exact (iterations_in_order w args radius _ Hall).
Qed.

Lemma missing_file_goes_to_reader_witness :
  read_locations w0 (namespace "X" ["Y"] "2013-01-01" "2014-12-31" "0" "30"
                       (VInt 0) (VStr "https://example.org/sites.csv") (VInt 0))
  = ret (Some (LocFrame sites)).
Proof.
  refine (proj1 (proj2 (missing_file_goes_to_reader Py2 w0 cmd_url _
                          "https://example.org/sites.csv" parse_cmd_url _ _ _) sites _)).
  - reflexivity.
  - discriminate.
  - reflexivity.
  - reflexivity.
Defined.

(** * Further properties of the script *)

(** ** The options (lines 24-89) *)

Lemma supplied_from cmd a acc :
  typed cmd a = false ->
  fold_left (fun acc ox => if names a (fst ox) then Some (snd ox) else acc) cmd acc = acc.
Proof.
  revert acc. induction cmd as [| ox cmd IH]; intros acc H; [reflexivity |].
  unfold typed in H. simpl in H. apply orb_false_iff in H as [H1 H2].
  simpl. rewrite H1. apply IH. exact H2.
Qed.

Lemma supplied_untyped cmd a : typed cmd a = false -> supplied cmd a = None.
Proof. apply supplied_from. Qed.

Lemma parse_action_error cmd a e : parse_action cmd a = inl e -> e = SystemExit 2.
Proof.
  unfold parse_action. destruct (supplied cmd a) as [xs |].
  - unfold convert. destruct (nargs a) as [| k |].
    + destruct xs as [| x [| y xs]]; congruence.
    + destruct (_ =? _)%nat; congruence.
    + destruct xs; congruence.
  - destruct (required a); congruence.
Qed.

Lemma store_error a cmd e : store a cmd (inl e) = inl e.
Proof. reflexivity. Qed.

Lemma fold_store_error cmd l e :
  fold_left (fun acc a => store a cmd acc) l (inl e) = inl e.
Proof. induction l as [| a l IH]; [reflexivity | exact IH]. Qed.

(** Every error of the parser is the usage error. *)
Lemma parse_args_error cmd e : parse_args cmd = inl e -> e = SystemExit 2.
Proof.
  unfold parse_args. destruct (forallb recognised cmd); [| congruence].
  assert (H : forall l acc,
            (forall e', acc = inl e' -> e' = SystemExit 2) ->
            fold_left (fun acc a => store a cmd acc) l acc = inl e -> e = SystemExit 2).
  { induction l as [| a l IH]; intros acc Hacc Hf; [exact (Hacc e Hf) |].
    simpl in Hf. apply (IH (store a cmd acc)); [| exact Hf].
    intros e' He'. unfold store in He'. destruct acc as [e0 | ns].
    - apply Hacc. exact He'.
    - destruct (parse_action cmd a) as [e1 | v] eqn:E; [| discriminate].
      injection He' as <-. exact (parse_action_error cmd a e1 E). }
  apply H. intros e' He'. discriminate He'.
Qed.

(** What the parser stores for each of its options. *)
Lemma parse_args_stores cmd args :
  parse_args cmd = inr args ->
  forall a, In a parser ->
    exists v, parse_action cmd a = inr v /\ args !! dest a = Some v.
Proof.
  unfold parse_args. destruct (forallb recognised cmd); [| discriminate].
  unfold parser. cbn [fold_left]. intros H.
  apply store_inr in H as (n8 & v9 & H & H9 & ->).
  apply store_inr in H as (n7 & v8 & H & H8 & ->).
  apply store_inr in H as (n6 & v7 & H & H7 & ->).
  apply store_inr in H as (n5 & v6 & H & H6 & ->).
  apply store_inr in H as (n4 & v5 & H & H5 & ->).
  apply store_inr in H as (n3 & v4 & H & H4 & ->).
  apply store_inr in H as (n2 & v3 & H & H3 & ->).
  apply store_inr in H as (n1 & v2 & H & H2 & ->).
  apply store_inr in H as (n0 & v1 & H & H1 & ->).
  injection H as <-.
  intros a Ha. simpl in Ha.
  repeat (destruct Ha as [<- | Ha]; [eexists; split; [eassumption | reflexivity] |]).
  destruct Ha.
Qed.

(** X1: on a command line made of the options of [getArgs] in their
    declared spellings (no help option, no abbreviation), when a required
    option ([--product], [--band]) is not typed, parsing ends with the usage
    error (exit status 2) and the script does nothing else. *)
Theorem missing_required_option v w cmd a :
  declared cmd = true ->
  In a parser -> required a = true -> typed cmd a = false ->
  parse_args cmd = inl (SystemExit 2) /\
  main v w cmd = ([], inl (SystemExit 2)).
Proof.
  intros _ Ha Hreq Htyped.
  assert (H : parse_args cmd = inl (SystemExit 2)).
  { destruct (parse_args cmd) as [e | args] eqn:E.
    - rewrite (parse_args_error cmd e E). reflexivity.
    - destruct (parse_args_stores cmd args E a Ha) as (x & Hx & _).
      unfold parse_action in Hx.
      rewrite (supplied_untyped cmd a Htyped), Hreq in Hx. discriminate Hx. }
  split; [exact H |]. unfold main, getArgs. rewrite H. reflexivity.
Qed.

Lemma missing_required_option_witness :
  main Py2 w0 [("-p", ["X"]); ("-loc", ["40.0"; "-105.0"])] = ([], inl (SystemExit 2)).
Proof.
  refine (proj2 (missing_required_option Py2 w0 _
                   (mkAction ["-b"; "--band"] NargsPlus true VNone) _ _ _ _)).
  - reflexivity.
  - right. left. reflexivity.
  - reflexivity.
  - reflexivity.
Defined.

(** X2: the namespace the parser returns has exactly nine attributes:
    product, band, start, end, radius, scale, location, file and directory. *)
Theorem namespace_attributes cmd args :
  parse_args cmd = inr args ->
  dom args = list_to_set (map dest parser) /\
  forall name, is_Some (args !! name) <->
    In name ["product"; "band"; "start"; "end"; "radius"; "scale";
             "location"; "file"; "directory"].
Proof.
  intros H. apply parse_args_namespace in H
    as (p & b & s & e & r & sc & l & f & d & -> & _).
  assert (Hdom : dom (namespace p b s e r sc l f d)
                 = (list_to_set (map dest parser) : gset string)).
  { unfold namespace. rewrite !dom_insert_L, dom_empty_L, parser_dests. simpl.
    set_solver. }
  split; [exact Hdom |].
  intros name. rewrite <- elem_of_dom, Hdom, parser_dests, elem_of_list_to_set.
  apply list_elem_of_In.
Qed.

Lemma namespace_attributes_witness :
  dom (namespace "X" ["Y"] "2013-01-01" "2014-12-31" "0" "30"
         (VList ["40.0"; "-105.0"]) (VInt 0) (VInt 0))
  = list_to_set (map dest parser).
Proof.
  exact (proj1 (namespace_attributes cmd_literal _ parse_cmd_literal)).
Defined.

(** X3: an option that is not on the command line is stored with the
    default of its declaration: start 2013-01-01, end 2014-12-31, radius
    and scale the strings "0" and "30", location, file and directory the
    integer 0. *)
Theorem defaults_when_absent cmd args a :
  parse_args cmd = inr args -> In a parser -> typed cmd a = false ->
  args !! dest a = Some (default a) /\
  In (dest a, default a)
     [("start", VStr "2013-01-01"); ("end", VStr "2014-12-31"); ("radius", VStr "0");
      ("scale", VStr "30"); ("location", VInt 0); ("file", VInt 0); ("directory", VInt 0)].
Proof.
  intros Hparse Ha Htyped.
  destruct (parse_args_stores cmd args Hparse a Ha) as (x & Hx & Hlook).
  unfold parse_action in Hx. rewrite (supplied_untyped cmd a Htyped) in Hx.
  destruct (required a) eqn:Hreq; [discriminate Hx |]. injection Hx as <-.
  split; [exact Hlook |].
  simpl in Ha.
  repeat (destruct Ha as [<- | Ha]; [first [discriminate Hreq | simpl; tauto] |]).
  destruct Ha.
Qed.

Lemma defaults_when_absent_witness :
  namespace "X" ["Y"] "2013-01-01" "2014-12-31" "0" "30"
    (VList ["40.0"; "-105.0"]) (VInt 0) (VInt 0) !! "scale" = Some (VStr "30").
Proof.
  refine (proj1 (defaults_when_absent cmd_literal _
                   (mkAction ["-sc"; "--scale"] NargsNone false (VStr "30"))
                   parse_cmd_literal _ _)).
  - do 5 right. left. reflexivity.
  - reflexivity.
Defined.

Lemma recognised_inv o xs :
  recognised (o, xs) = true ->
  exists a v, In a parser /\ names a o = true /\ convert (nargs a) xs = inr v.
Proof.
  unfold recognised. intros H. apply existsb_exists in H as (a & Ha & H).
  apply andb_true_iff in H as [Hn Hc]. simpl in Hn, Hc.
  destruct (convert (nargs a) xs) as [e | v] eqn:E; [discriminate Hc |].
  exists a, v. split; [exact Ha |]. split; [exact Hn | exact E].
Qed.

(** X4: [--location] takes exactly two values: on a command line made of
    the options of [getArgs] in their declared spellings (no help option, no
    abbreviation), typing it with any other number of values makes parsing
    end with the usage error (exit status 2), and the script does nothing
    else. *)
Theorem location_needs_two_values v w cmd o xs :
  declared cmd = true ->
  In (o, xs) cmd -> o = "-loc" \/ o = "--location" -> length xs <> 2%nat ->
  parse_args cmd = inl (SystemExit 2) /\
  main v w cmd = ([], inl (SystemExit 2)).
Proof.
  intros _ Hin Ho Hlen.
  assert (Hrec : recognised (o, xs) = false).
  { destruct (recognised (o, xs)) eqn:E; [| reflexivity]. exfalso.
    apply recognised_inv in E as (a & x & Ha & Hn & Hc). simpl in Ha.
    destruct Ho as [-> | ->];
      repeat (destruct Ha as [<- | Ha];
              [first [ discriminate Hn
                     | simpl in Hc; destruct (length xs =? 2)%nat eqn:El;
                       [apply Nat.eqb_eq in El; contradiction | discriminate Hc] ] |]);
      destruct Ha. }
  assert (H : parse_args cmd = inl (SystemExit 2)).
  { unfold parse_args. destruct (forallb recognised cmd) eqn:E; [| reflexivity].
    rewrite forallb_forall in E. rewrite (E _ Hin) in Hrec. discriminate Hrec. }
  split; [exact H |]. unfold main, getArgs. rewrite H. reflexivity.
Qed.

Lemma location_needs_two_values_witness :
  main Py2 w0 [("-p", ["X"]); ("-b", ["Y"]); ("-loc", ["40.0"])] = ([], inl (SystemExit 2)).
Proof.
  refine (proj2 (location_needs_two_values Py2 w0 _ "-loc" ["40.0"] _ _ _ _)).
  - reflexivity.
  - right. right. left. reflexivity.
  - left. reflexivity.
  - discriminate.
Defined.

(** ** Before the loop (lines 99-117) *)

Lemma in_trace_bind {A B} (m : M A) (k : A -> M B) ev :
  In ev (trace (bind m k)) ->
  In ev (trace m) \/ exists a, outcome m = inr a /\ In ev (trace (k a)).
Proof.
  rewrite trace_bind. destruct (outcome m) as [e | a] eqn:E; [auto |].
  intros H. apply in_app_or in H as [H | H]; [auto | right; eauto].
Qed.





Lemma process_no_initialize w args radius loc :
  ~ In EInitialize (trace (process w args radius loc)).
Proof.
  intros H. pose proof (process_cases w args radius loc) as Hc.
  destruct Hc as [e | name e Hname | name q e Hname Hg
                 | name q region df d ev Hname Hg Hr Hn Hd Hs]; simpl in H.
  - exact H.
  - destruct H as [H | []]. discriminate H.
  - destruct H as [H | [H | []]]; discriminate H.
  - destruct H as [H | [H | [H | []]]]; try discriminate H. subst ev.
    unfold sink in Hs. destruct (truthy d); [destruct d |]; discriminate Hs.
Qed.

(** X7: the session is opened at most once, and before anything else the
    script prints, requests or writes. *)
Theorem session_first_and_once v w cmd :
  trace (main v w cmd) = [] \/
  exists t, trace (main v w cmd) = EInitialize :: t /\ ~ In EInitialize t.
Proof.
  destruct (parse_args cmd) as [e | args] eqn:Hparse.
  { left. unfold main, getArgs. rewrite Hparse. reflexivity. }
  rewrite (main_run _ _ _ _ Hparse).
  destruct (parse_args_attributes _ _ Hparse) as (Hloc & _).
  unfold run. rewrite (bind_pure _ _ (read_locations_pure w args Hloc)).
  destruct (outcome (read_locations w args)) as [e | locations]; [left; reflexivity |].
  rewrite (bind_pure _ _ (fix_radius_pure v w args)).
  destruct (outcome (fix_radius v w args)) as [e | radius]; [left; reflexivity |].
  right. unfold initialize. rewrite bind_assoc, bind_emit. simpl trace.
  eexists. split; [reflexivity |].
  destruct (ee_Initialize w) as [e |]; [intros [] |]. rewrite bind_ret.
  unfold iter_locations, lookup_var.
  destruct locations as [[tuple | table] |]; try (intros []).
  rewrite !bind_ret. intros H. apply for_each_events in H as (loc & _ & H).
  exact (process_no_initialize w args radius loc H).
Qed.

(** ** The requests (lines 123-144) *)

(** What [get_region] sends: the options of the command line, the geometry
    it was given and the scale converted by [int]. *)
Lemma get_region_query w (args : gmap string pyval) g q :
  In (EGetRegion q) (trace (get_region w args g)) ->
  args !! "product" = Some (q_product q) /\
  (exists band, args !! "band" = Some band /\ py_tuple band = inr (q_bands q)) /\
  args !! "start" = Some (q_start q) /\ args !! "end" = Some (q_end q) /\
  (exists scale, args !! "scale" = Some scale /\ py_int w scale = inr (q_scale q)) /\
  q_geometry q = g.
Proof.
  unfold get_region, py_getattr.
  destruct (args !! "product") as [product |]; [| intros []]. mstep.
  destruct (args !! "band") as [band |]; [| intros []]. mstep.
  destruct (py_tuple band) as [e | bands] eqn:Eb; [intros [] |]. mstep.
  destruct (args !! "start") as [start |]; [| intros []]. mstep.
  destruct (args !! "end") as [end_ |]; [| intros []]. mstep.
  destruct (args !! "scale") as [scale |]; [| intros []]. mstep.
  destruct (py_int w scale) as [e | sc] eqn:Es; [intros [] |]. mstep.
  rewrite bind_emit. simpl. intros [H | []]. injection H as <-. simpl.
  repeat split; eauto.
Qed.

Lemma process_request_sent w args radius loc q :
  In (EGetRegion q) (trace (process w args radius loc)) ->
  exists g, In (EGetRegion q) (trace (get_region w args g)).
Proof.
  unfold process. intros H.
  apply in_trace_bind in H as [[] | (name & _ & H)].
  apply in_trace_bind in H as [[] | (message & _ & H)].
  apply in_trace_bind in H as [[H | []] | (_ & _ & H)]; [discriminate H |].
  apply in_trace_bind in H as [H | (g & _ & H)];
    [rewrite make_geometry_pure in H; destruct H |].
  apply in_trace_bind in H as [H | (region & _ & H)]; [eauto |].
  apply in_trace_bind in H as [H | (df & _ & H)];
    [rewrite normalise_pure in H; destruct H |].
  apply in_trace_bind in H as [H | (d & _ & H)];
    [rewrite pure_getattr in H; destruct H |].
  destruct (truthy d).
  - apply in_trace_bind in H as [H | (d' & _ & H)];
      [rewrite pure_getattr in H; destruct H |].
    apply in_trace_bind in H as [[] | (name' & _ & H)].
    apply in_trace_bind in H as [[] | (p1 & _ & H)].
    apply in_trace_bind in H as [[] | (p2 & _ & H)].
    unfold write_csv in H. destruct p2; simpl in H; try destruct H as [H | []];
      try discriminate H; destruct H.
  - simpl in H. destruct H as [H | []]. discriminate H.
Qed.

Lemma run_request_sent v w cmd args q :
  parse_args cmd = inr args ->
  In (EGetRegion q) (trace (main v w cmd)) ->
  exists g, In (EGetRegion q) (trace (get_region w args g)).
Proof.
  intros Hparse Hin. rewrite (main_run _ _ _ _ Hparse) in Hin.
  destruct (parse_args_attributes _ _ Hparse) as (Hloc & _).
  apply (run_events v w args _ Hloc) in Hin
    as [Hin | (table & radius & loc & _ & _ & _ & Hin)]; [discriminate Hin |].
  exact (process_request_sent w args radius loc q Hin).
Qed.

(** X8: every request of a run carries the product, the bands, the start
    and end dates and the scale of the command line (the scale converted to
    an integer); only the geometry differs from one location to the next. *)
Theorem request_parameters v w cmd args q :
  parse_args cmd = inr args ->
  In (EGetRegion q) (trace (main v w cmd)) ->
  args !! "product" = Some (q_product q) /\
  (exists band, args !! "band" = Some (VList band) /\ q_bands q = map VStr band) /\
  args !! "start" = Some (q_start q) /\ args !! "end" = Some (q_end q) /\
  (exists scale, args !! "scale" = Some (VStr scale) /\
                 int_of_str w scale = Some (q_scale q)).
Proof.
  intros Hparse Hin.
  destruct (run_request_sent v w cmd args q Hparse Hin) as [g Hg]. clear Hin.
  rename Hg into Hin.
  apply get_region_query in Hin as (Hp & (band & Hb & Htuple) & Hs & He & (sc & Hsc & Hint) & _).
  apply parse_args_namespace in Hparse
    as (p' & b' & s' & e' & r' & sc' & l' & f' & d' & -> & _).
  destruct (namespace_lookup p' b' s' e' r' sc' l' f' d')
    as (_ & Hb' & _ & _ & _ & Hsc' & _).
  simpl in Hb', Hsc'.
  rewrite Hb' in Hb. injection Hb as <-. rewrite Hsc' in Hsc. injection Hsc as <-.
  split; [exact Hp |]. split.
  - exists b'. split; [exact Hb' |]. simpl in Htuple. congruence.
  - split; [exact Hs |]. split; [exact He |].
    exists sc'. split; [exact Hsc' |]. simpl in Hint.
    destruct (int_of_str w sc'); congruence.
Qed.

Lemma request_parameters_witness :
  let q := mkQuery (VStr "X") [VStr "Y"] (VStr "2013-01-01") (VStr "2014-12-31")
             (Rectangle [VFloat (-72.25); VFloat 42.5; VFloat (-72.25); VFloat 42.5]) 30 in
  let args := namespace "X" ["Y"] "2013-01-01" "2014-12-31" "0" "30"
                (VInt 0) (VStr "https://example.org/sites.csv") (VInt 0) in
  args !! "product" = Some (q_product q) /\
  (exists band, args !! "band" = Some (VList band) /\ q_bands q = map VStr band) /\
  args !! "start" = Some (q_start q) /\ args !! "end" = Some (q_end q) /\
  (exists scale, args !! "scale" = Some (VStr scale) /\
                 int_of_str w0 scale = Some (q_scale q)).
Proof.
  refine (request_parameters Py2 w0 cmd_url _ _ parse_cmd_url _).
  apply (nth_error_In _ 2). reflexivity.
Defined.

(** X9: a scale that [int] cannot read never reaches the service: no
    request is sent, and the run can only complete when the table of
    locations has no row. *)
Theorem unreadable_scale_sends_nothing v w cmd args s :
  parse_args cmd = inr args ->
  args !! "scale" = Some (VStr s) -> int_of_str w s = None ->
  (forall q, ~ In (EGetRegion q) (trace (main v w cmd))) /\
  (forall t, main v w cmd = (t, inr tt) -> t = [EInitialize]).
Proof.
  intros Hparse Hs Hint.
  assert (Hnone : forall q, ~ In (EGetRegion q) (trace (main v w cmd))).
  { intros q Hin.
    destruct (run_request_sent v w cmd args q Hparse Hin) as [g Hg].
    apply get_region_query in Hg as (_ & _ & _ & _ & (sc & Hsc & Hq) & _).
    rewrite Hs in Hsc. injection Hsc as <-. simpl in Hq. rewrite Hint in Hq.
    discriminate Hq. }
  split; [exact Hnone |].
  intros t Hmain. pose proof Hmain as Hrun. rewrite (main_run _ _ _ _ Hparse) in Hrun.
  destruct (parse_args_attributes _ _ Hparse) as (Hloc & _).
  destruct (run_completes v w args t Hloc Hrun) as (table & radius & _ & _ & -> & Hall).
  destruct (itertuples table) as [| loc locs]; [reflexivity |]. exfalso.
  apply Forall_inv in Hall.
  destruct (process_completes w args radius loc Hall)
    as (name & q & region & df & d & ev & _ & _ & _ & _ & _ & _ & Ht).
  apply (Hnone q). rewrite Hmain. simpl. right. rewrite Ht. simpl. auto.
Qed.

Lemma parse_cmd_bad_scale :
  parse_args cmd_bad_scale =
    inr (namespace "X" ["Y"] "2013-01-01" "2014-12-31" "0" "fine"
           (VInt 0) (VStr "https://example.org/sites.csv") (VInt 0)).
Proof. reflexivity. Qed.

Lemma queried_none t : (forall q, ~ In (EGetRegion q) t) -> queried t = [].
Proof.
  induction t as [| ev t IH]; intros H; [reflexivity |].
  destruct ev as [x | df | | q | path file]; simpl;
    try (apply IH; intros q' Hq; apply (H q'); right; exact Hq).
  exfalso. apply (H q). left. reflexivity.
Qed.

Lemma unreadable_scale_sends_nothing_witness :
  queried (trace (main Py2 w0 cmd_bad_scale)) = [].
Proof.
  apply queried_none.
  refine (proj1 (unreadable_scale_sends_nothing Py2 w0 cmd_bad_scale _ "fine"
                   parse_cmd_bad_scale _ _)); reflexivity.
Defined.

(** ** The loop (lines 123-172) *)

(** X10: a run that completes has printed one feedback line
    [processing: <name>] and sent one request per row of the table, in the
    order of the rows; the geometry of each request is the one built for
    its row. *)
Theorem one_request_per_location v w cmd args t :
  parse_args cmd = inr args -> main v w cmd = (t, inr tt) ->
  exists table radius,
    read_locations w args = ret (Some (LocFrame table)) /\
    fix_radius v w args = ret radius /\
    List.Forall2 (fun loc m => exists name,
                    loc !! 1%nat = Some (VStr name) /\ m = VStr ("processing: " ++ name))
                 (itertuples table) (messages t) /\
    List.Forall2 (fun loc g => make_geometry args radius loc = ret g)
                 (itertuples table) (queried t).
Proof.
  intros Hparse Hmain. rewrite (main_run _ _ _ _ Hparse) in Hmain.
  destruct (parse_args_attributes _ _ Hparse) as (Hloc & _).
  destruct (run_completes v w args t Hloc Hmain) as (table & radius & Hread & Hfix & -> & Hall).
  exists table, radius. split; [exact Hread |]. split; [exact Hfix |].
  exact (iterations_in_order w args radius _ Hall).
Qed.

Lemma one_request_per_location_witness :
  exists table radius,
    read_locations w0
      (namespace "X" ["Y"] "2013-01-01" "2014-12-31" "0" "30"
         (VInt 0) (VStr "https://example.org/sites.csv") (VInt 0))
      = ret (Some (LocFrame table)) /\
    fix_radius Py2 w0
      (namespace "X" ["Y"] "2013-01-01" "2014-12-31" "0" "30"
         (VInt 0) (VStr "https://example.org/sites.csv") (VInt 0)) = ret radius /\
    List.Forall2 (fun loc m => exists name,
                    loc !! 1%nat = Some (VStr name) /\ m = VStr ("processing: " ++ name))
                 (itertuples table) (messages (trace (main Py2 w0 cmd_url))) /\
    List.Forall2 (fun loc g =>
                    make_geometry
                      (namespace "X" ["Y"] "2013-01-01" "2014-12-31" "0" "30"
                         (VInt 0) (VStr "https://example.org/sites.csv") (VInt 0))
                      radius loc = ret g)
                 (itertuples table) (queried (trace (main Py2 w0 cmd_url))).
Proof.
  refine (one_request_per_location Py2 w0 cmd_url _ (trace (main Py2 w0 cmd_url))
            parse_cmd_url _).
  reflexivity.
Defined.

Lemma for_each_aborts {A} (before after : list A) (x : A) (body : A -> M unit) e :
  Forall (fun y => outcome (body y) = inr tt) before ->
  outcome (body x) = inl e ->
  for_each (before ++ x :: after) body =
    ((concat (map (fun y => trace (body y)) before) ++ trace (body x))%list, inl e).
Proof.
  intros Hall Hx. induction Hall as [| y before Hy Hbefore IH]; simpl.
  - destruct (body x) as [tx rx]. simpl in Hx. subst rx. reflexivity.
  - destruct (body y) as [ty ry] eqn:Ey. simpl in Hy. subst ry.
    rewrite bind_pair, IH. simpl. rewrite app_assoc. reflexivity.
Qed.

(** X11: the first location whose iteration raises ends the run with that
    exception: the locations before it have been processed, the ones after
    it are not touched. *)
Theorem first_failure_aborts v w cmd args table radius before loc after e :
  parse_args cmd = inr args ->
  read_locations w args = ret (Some (LocFrame table)) ->
  fix_radius v w args = ret radius ->
  ee_Initialize w = None ->
  itertuples table = (before ++ loc :: after)%list ->
  Forall (fun l => outcome (process w args radius l) = inr tt) before ->
  outcome (process w args radius loc) = inl e ->
  main v w cmd =
    (EInitialize :: (concat (map (fun l => trace (process w args radius l)) before)
                     ++ trace (process w args radius loc))%list,
     inl e).
Proof.
  intros Hparse Hread Hfix Hinit Hrows Hbefore Hloc.
  rewrite (main_run _ _ _ _ Hparse). unfold run.
  rewrite Hread, bind_ret, Hfix, bind_ret. unfold initialize.
  rewrite bind_assoc, bind_emit, Hinit, bind_ret.
  unfold iter_locations, lookup_var. rewrite !bind_ret, Hrows.
  rewrite (for_each_aborts before after loc (process w args radius) e Hbefore Hloc).
  reflexivity.
Qed.

Lemma first_failure_aborts_witness :
  messages (trace (main Py2 (with_table sites_short) cmd_url))
    = [VStr "processing: harvard"; VStr "processing: nowhere"] /\
  outcome (main Py2 (with_table sites_short) cmd_url) = inl IndexError.
Proof.
  rewrite (first_failure_aborts Py2 (with_table sites_short) cmd_url _ sites_short
             (Some 0%float)
             [[VInt 0; VStr "harvard"; VFloat 42.5; VFloat (-72.25)]]
             [VInt 1; VStr "nowhere"]
             [[VInt 2; VStr "boulder"; VInt 40; VInt (-105)]]
             IndexError parse_cmd_url);
    try reflexivity.
  - split; reflexivity.
  - repeat constructor.
Defined.

(** X12: a row with fewer than three columns (a name at most, or a name
    and one coordinate) makes its iteration raise [IndexError] at line 126
    or at the first coordinate read (line 135 or 138), after the feedback
    line at most: no request is sent and nothing is written. *)
Theorem short_row_sends_nothing w cmd args radius loc :
  parse_args cmd = inr args ->
  length loc < 4 ->
  (forall x, loc !! 1%nat = Some x -> exists name, x = VStr name) ->
  process w args radius loc = ([], inl IndexError) \/
  exists name, loc !! 1%nat = Some (VStr name) /\
    process w args radius loc
      = ([EPrint (VStr ("processing: " ++ name))], inl IndexError).
Proof.
  intros Hparse Hlen Hname.
  destruct (parse_args_attributes _ _ Hparse) as (_ & [s Hr] & _).
  assert (H3 : loc !! 3%nat = None) by (apply lookup_ge_None; lia).
  unfold process, py_index.
  destruct (loc !! 1%nat) as [x |] eqn:E1; [| left; reflexivity].
  destruct (Hname x eq_refl) as [name ->]. right. exists name. split; [reflexivity |].
  mstep. simpl py_add. mstep. unfold py_print. rewrite bind_emit.
  unfold make_geometry, py_index. rewrite (getattr_some _ _ _ Hr), bind_ret, H3.
  destruct (truthy (VStr s)); reflexivity.
Qed.

Lemma short_row_sends_nothing_witness :
  process w0
    (namespace "X" ["Y"] "2013-01-01" "2014-12-31" "0" "30"
       (VInt 0) (VStr "https://example.org/sites.csv") (VInt 0))
    (Some 0%float) [VInt 1; VStr "nowhere"] = ([], inl IndexError) \/
  exists name, [VInt 1; VStr "nowhere"] !! 1%nat = Some (VStr name) /\
    process w0
      (namespace "X" ["Y"] "2013-01-01" "2014-12-31" "0" "30"
         (VInt 0) (VStr "https://example.org/sites.csv") (VInt 0))
      (Some 0%float) [VInt 1; VStr "nowhere"]
      = ([EPrint (VStr ("processing: " ++ name))], inl IndexError).
Proof.
  refine (short_row_sends_nothing w0 cmd_url _ (Some 0%float) [VInt 1; VStr "nowhere"]
            parse_cmd_url _ _).
  - simpl. lia.
  - intros x [= <-]. eexists. reflexivity.
Defined.

(** X13: when the table read has no row, the run opens the session and
    completes without a request, a print or a file. *)
Theorem empty_table_completes v w cmd args f table radius :
  parse_args cmd = inr args ->
  args !! "file" = Some (VStr f) -> f <> "" -> os_path_isfile w f = false ->
  pd_read_csv w f = inr table -> values table = [] ->
  fix_radius v w args = ret radius -> ee_Initialize w = None ->
  main v w cmd = ([EInitialize], inr tt).
Proof.
  intros Hparse Hf Hne Hfile Hread Hrows Hfix Hinit.
  rewrite (main_run _ _ _ _ Hparse).
  rewrite (run_missing_file v w args f table Hf Hne Hfile Hread).
  rewrite Hfix, bind_ret. unfold initialize. rewrite bind_assoc, bind_emit, Hinit, bind_ret.
  unfold itertuples. rewrite Hrows. reflexivity.
Qed.

Lemma empty_table_completes_witness :
  main Py2 (with_table no_sites) cmd_url = ([EInitialize], inr tt).
Proof.
  refine (empty_table_completes Py2 (with_table no_sites) cmd_url _
            "https://example.org/sites.csv" no_sites (Some 0%float)
            parse_cmd_url _ _ _ _ _ _ _); try reflexivity.
  discriminate.
Defined.

(** ** The normaliser, its errors and its shape (lines 147-164) *)

(** X14: region values without a header line raise [IndexError]; with
    records as long as the header, a header without [id] raises the key
    error of line 153 and a header with [id] but without [time] the
    attribute error of line 158. *)
Theorem normalise_missing_column (args : gmap string pyval) names rows :
  rows <> [] -> Forall (fun r => length r = length names) rows ->
  normalise args [] = raise IndexError /\
  (~ In "id" names -> normalise args (map VStr names :: rows) = raise (KeyError "id")) /\
  (In "id" names -> ~ In "time" names ->
   normalise args (map VStr names :: rows) = raise (AttributeError "time")).
Proof.
  intros Hne Hlen. split; [reflexivity |].
  assert (Hstart : forall k : DataFrame -> M DataFrame,
            (let* df := lift (set_columns (map VStr names)
                                (from_records (drop 0 rows))) in k df)
            = k (mkDataFrame (map VStr names) rows)).
  { intros k. change (drop 0 rows) with rows.
    rewrite (from_records_uniform (length names) rows Hne Hlen).
    unfold set_columns. simpl columns. simpl values.
    rewrite !length_map, length_seq, Nat.eqb_refl, bind_lift_inr. reflexivity. }
  split.
  - intros Hid. unfold normalise. simpl skipn. simpl py_first.
    rewrite bind_lift_inr, Hstart.
    unfold drop_column. simpl columns. rewrite (has_label_not_in "id" names Hid).
    reflexivity.
  - intros Hid Htime. unfold normalise. simpl skipn. simpl py_first.
    rewrite bind_lift_inr, Hstart.
    unfold drop_column. simpl columns. simpl values.
    rewrite (proj2 (has_label_in "id" names) Hid), bind_lift_inr, map_map.
    change (map (fun x => negb (is_label "id" (VStr x))) names) with (map kept names).
    rewrite select_header. unfold df_getattr, column. simpl columns.
    rewrite has_label_not_in; [reflexivity |].
    intros H. apply filter_In in H as [H _]. contradiction.
Qed.

Lemma normalise_missing_column_witness :
  normalise (namespace "X" ["Y"] "2013-01-01" "2014-12-31" "0" "30"
               (VInt 0) (VStr "https://example.org/sites.csv") (VInt 0))
            [[VStr "id"; VStr "Y"]; [VInt 0; VInt 5]]
  = raise (AttributeError "time").
Proof.
  refine (proj2 (proj2 (normalise_missing_column _ ["id"; "Y"] [[VInt 0; VInt 5]] _ _)) _ _).
  - discriminate.
  - repeat constructor.
  - left. reflexivity.
  - simpl. intuition discriminate.
Defined.

Lemma map_exn_length {A B} (f : A -> exn + B) xs ys :
  map_exn f xs = inr ys -> length ys = length xs.
Proof.
  revert ys. induction xs as [| x xs IH]; simpl; intros ys H.
  - injection H as <-. reflexivity.
  - destruct (f x) as [e | y]; [discriminate H |].
    destruct (map_exn f xs) as [e | ys']; [discriminate H |].
    injection H as <-. simpl. rewrite (IH ys' eq_refl). reflexivity.
Qed.

Lemma set_column_rows name series df :
  length series = length (values df) ->
  length (values (set_column name series df)) = length (values df).
Proof.
  intros H. unfold set_column.
  destruct (has_label name (columns df)); simpl values;
    rewrite length_zip_with; lia.
Qed.

Lemma column_rows name df series :
  column name df = Some series -> length series = length (values df).
Proof.
  unfold column. destruct (has_label name (columns df)); [| discriminate].
  intros H. injection H as <-. apply length_map.
Qed.

Lemma series_of_rows x n series : series_of x n = inr series -> length series = n.
Proof.
  unfold series_of. destruct x; intros H; try (injection H as <-; apply repeat_length).
  destruct (length l =? n)%nat eqn:E; [| discriminate H].
  injection H as <-. rewrite length_map. apply Nat.eqb_eq. exact E.
Qed.

(** X15: whenever the normaliser returns a table, the table has exactly
    one row per record of the region values, whatever the header. *)
Theorem normalise_keeps_rows (args : gmap string pyval) header rows df :
  normalise args (header :: rows) = ret df ->
  length (values df) = length rows.
Proof.
  intros H. unfold normalise in H. simpl py_first in H. simpl skipn in H. mstep_in H.
  change (drop 0 rows) with rows in H.
  destruct (set_columns _ _) as [e | df1] eqn:E1; [discriminate H |]. mstep_in H.
  assert (L1 : length (values df1) = length rows).
  { unfold set_columns in E1. destruct (_ =? _)%nat; [| discriminate].
    injection E1 as <-. simpl. apply length_map. }
  destruct (drop_column "id" df1) as [e | df2] eqn:E2; [discriminate H |]. mstep_in H.
  assert (L2 : length (values df2) = length rows).
  { unfold drop_column in E2. destruct (has_label "id" (columns df1)); [| discriminate].
    injection E2 as <-. simpl. rewrite length_map. exact L1. }
  destruct (df_getattr "time" df2) as [e | time] eqn:E3; [discriminate H |]. mstep_in H.
  assert (L3 : length time = length (values df2)).
  { unfold df_getattr in E3. destruct (column "time" df2) as [t |] eqn:Ec; [| discriminate].
    injection E3 as <-. exact (column_rows _ _ _ Ec). }
  destruct (map_exn div_1000 time) as [e | time1] eqn:E4; [discriminate H |]. mstep_in H.
  apply map_exn_length in E4.
  set (df3 := set_column "time" time1 df2) in *.
  assert (L4 : length (values df3) = length rows).
  { unfold df3. rewrite set_column_rows; [exact L2 | lia]. }
  destruct (df_getitem "time" df3) as [e | time2] eqn:E5; [discriminate H |]. mstep_in H.
  assert (L5 : length time2 = length (values df3)).
  { unfold df_getitem in E5. destruct (column "time" df3) as [t |] eqn:Ec; [| discriminate].
    injection E5 as <-. exact (column_rows _ _ _ Ec). }
  destruct (map_exn to_datetime_s time2) as [e | time3] eqn:E6; [discriminate H |].
  mstep_in H. apply map_exn_length in E6.
  set (df4 := rename_column "time" "date" (set_column "time" time3 df3)) in *.
  assert (L6 : length (values df4) = length rows).
  { unfold df4, rename_column. simpl values. rewrite set_column_rows; [exact L4 | lia]. }
  destruct (py_getattr args "product") as [t [e | product]] eqn:Ep.
  - pose proof (pure_getattr args "product") as Hpure. rewrite Ep in Hpure.
    simpl in Hpure. subst t. discriminate H.
  - pose proof (pure_getattr args "product") as Hpure. rewrite Ep in Hpure.
    simpl in Hpure. subst t. change ([], inr product) with (ret product) in H.
    mstep_in H.
    destruct (series_of product _) as [e | series] eqn:E7; [discriminate H |]. mstep_in H.
    apply series_of_rows in E7.
    unfold ret in H. injection H as <-.
    rewrite set_column_rows; [exact L6 | exact E7].
Qed.

Lemma normalise_keeps_rows_witness :
  length (values (mkDataFrame [VStr "date"; VStr "Y"; VStr "product"]
                    [[VTimestamp 0; VInt 5; VStr "X"]; [VTimestamp 1; VInt 6; VStr "X"]]))
  = length [[VInt 0; VInt 0; VInt 5]; [VInt 1; VInt 1000; VInt 6]].
Proof.
  refine (normalise_keeps_rows
            (namespace "X" ["Y"] "2013-01-01" "2014-12-31" "0" "30"
               (VInt 0) (VStr "https://example.org/sites.csv") (VInt 0))
            [VStr "id"; VStr "time"; VStr "Y"] _ _ _).
  reflexivity.
Defined.

(** ** Dead branches of the resolver (lines 101-104) *)

(** X16: for every command line the parser accepts, the two branches
    behind [args.loc] are never taken: the diagnostic of line 102 is never
    printed and the tuple of line 104 is never bound to [locations]. *)
Theorem resolver_dead_branches v w cmd :
  ~ In (EPrint warning) (trace (main v w cmd)) /\
  (forall args tuple, parse_args cmd = inr args ->
     outcome (read_locations w args) <> inr (Some (LocTuple tuple))).
Proof.
  split.
  - destruct (parse_args cmd) as [e | args] eqn:Hparse.
    + unfold main, getArgs. rewrite Hparse. intros [].
    + rewrite (main_run _ _ _ _ Hparse).
      destruct (parse_args_attributes _ _ Hparse) as (Hloc & _).
      intros Hin. apply (run_events v w args _ Hloc) in Hin
        as [Hin | (table & radius & loc & _ & _ & _ & Hin)]; [discriminate Hin |].
      exact (process_no_warning w args radius loc Hin).
  - intros args tuple Hparse.
    destruct (parse_args_attributes _ _ Hparse) as (Hloc & _ & _ & (f & Hf & Hfile) & _).
    unfold read_locations. rewrite (getattr_some _ _ _ Hf), !bind_ret.
    destruct (truthy f); [| discriminate].
    destruct (isfile w f) as [e | [|]]; [discriminate | |]; mstep.
    + rewrite (getattr_none _ _ Hloc). discriminate.
    + destruct (read_csv w f) as [e | table]; discriminate.
Qed.
